(** * trading-mcp: the put/call parser, the health score and the insider
    sentiment heuristics, shallowly embedded.

    Sources: src/adapters/barchart.ts (the Barchart put/call page parser),
    src/tools/fundamentals.ts (calculateHealthScore) and
    src/tools/insider.ts (calculateInsiderSentiment and its helpers, the
    selection of getInsiderActivity, extractNewsThemes, assessNewsUrgency,
    categorizeNewsSources).

    Numbers.  JavaScript numbers are modelled as exact rationals [Q]: the
    comparisons, sums and quotients of the code are taken exactly, without
    IEEE rounding.  NaN appears only where the code tests it ([isNaN] after
    [parseFloat]); there it is the [None] of [jsParseFloat].  Infinities are
    not part of this model.

    Strings.  JavaScript strings are modelled as [string] (one [ascii] per
    UTF-16 code unit, Latin-1 range), and worked on as [list ascii]. *)

From Stdlib Require Import List String Ascii ZArith QArith Qround Qpower Qabs Qminmax Lia Lqa.
From Stdlib Require Import Sorting.Sorted Sorting.Permutation.
Import ListNotations.

Open Scope Z_scope.

(* ------------------------------------------------------------------ *)
(** ** Characters and decimal digits *)

Module Chars.

Definition code (c : ascii) : nat := nat_of_ascii c.

Definition is_digit (c : ascii) : bool :=
  (48 <=? code c)%nat && (code c <=? 57)%nat.

Definition digit_val (c : ascii) : Z := Z.of_nat (code c) - 48.

Definition ascii_of_digit (d : Z) : ascii := ascii_of_nat (Z.to_nat (d + 48)).

(** ASCII lower-casing, as [String.prototype.toLowerCase] on [A-Z]. *)
Definition lower (c : ascii) : ascii :=
  if (65 <=? code c)%nat && (code c <=? 90)%nat
  then ascii_of_nat (code c + 32) else c.

Definition lower_list (l : list ascii) : list ascii := map lower l.

(** JavaScript white space and line terminators in the Latin-1 range
    (TAB, LF, VT, FF, CR, SP, NBSP): the class [\s] and [StrWhiteSpaceChar]. *)
Definition is_space (c : ascii) : bool :=
  match code c with
  | 9 | 10 | 11 | 12 | 13 | 32 | 160 => true
  | _ => false
  end%nat.

(** Digits read most significant first, starting from the accumulator. *)
Fixpoint digits_value (acc : Z) (l : list ascii) : Z :=
  match l with
  | [] => acc
  | c :: t => digits_value (acc * 10 + digit_val c) t
  end.

(** The longest prefix of decimal digits, and the rest. *)
Fixpoint take_digits (l : list ascii) : list ascii * list ascii :=
  match l with
  | c :: t =>
      if is_digit c then let (ds, r) := take_digits t in (c :: ds, r)
      else ([], l)
  | [] => ([], [])
  end.

Fixpoint repeat_char (c : ascii) (n : nat) : list ascii :=
  match n with O => [] | S k => c :: repeat_char c k end.

(** Decimal digits of a non-negative integer, most significant first,
    pushed in front of [acc]. *)
Fixpoint z_digits_aux (fuel : nat) (n : Z) (acc : list ascii) : list ascii :=
  match fuel with
  | O => acc
  | S f =>
      let acc' := ascii_of_digit (n mod 10) :: acc in
      if n <? 10 then acc' else z_digits_aux f (n / 10) acc'
  end.

Definition z_digits (n : Z) : list ascii :=
  z_digits_aux (Z.to_nat (Z.log2 n + 1)) n [].

Definition string_of_Z (n : Z) : list ascii :=
  if n <? 0 then "-"%char :: z_digits (- n) else z_digits n.

(** Substring search on character lists: [String.prototype.includes]. *)
Fixpoint prefixb (p l : list ascii) : bool :=
  match p, l with
  | [], _ => true
  | a :: p', b :: l' => Ascii.eqb a b && prefixb p' l'
  | _ :: _, [] => false
  end.

Fixpoint includes (l p : list ascii) : bool :=
  prefixb p l || match l with [] => false | _ :: t => includes t p end.

Definition str_includes (s p : string) : bool :=
  includes (list_ascii_of_string s) (list_ascii_of_string p).

End Chars.

(* ------------------------------------------------------------------ *)
(** ** JavaScript number primitives on exact rationals *)

Module JsNum.
Import Chars.

Definition qlt (x y : Q) : bool := negb (Qle_bool y x).
Definition qle (x y : Q) : bool := Qle_bool x y.
Definition qeq (x y : Q) : bool := Qeq_bool x y.

(** [m * 10^e] *)
Definition dec_val (m e : Z) : Q := (inject_Z m * Qpower (inject_Z 10) e)%Q.

(** [parseFloat]: skip leading white space, read the longest prefix that is
    a [StrDecimalLiteral] (sign, digits, optional fraction, optional
    exponent) and return its value; [None] is NaN.  The [Infinity] literal
    has no value in this model of numbers and reads as no number. *)
Fixpoint js_trim (l : list ascii) : list ascii :=
  match l with
  | c :: t => if is_space c then js_trim t else l
  | [] => []
  end.

Definition read_sign (l : list ascii) : Z * list ascii :=
  match l with
  | c :: t => if Ascii.eqb c "-"%char then (-1, t)
              else if Ascii.eqb c "+"%char then (1, t) else (1, l)
  | [] => (1, l)
  end.

(** [ExponentPart]: its value, 0 when absent. *)
Definition read_exponent (l : list ascii) : Z :=
  match l with
  | c :: t =>
      if Ascii.eqb c "e"%char || Ascii.eqb c "E"%char then
        let '(esgn, t) := read_sign t in
        let (ed, _) := take_digits t in
        match ed with [] => 0 | _ => esgn * digits_value 0 ed end
      else 0
  | [] => 0
  end.

(** [StrUnsignedDecimalLiteral]: [digits [. digits] [exp]] or [. digits [exp]]. *)
Definition read_unsigned (l : list ascii) : option Q :=
  let '(ip, l) := take_digits l in
  let '(fp, l) := match l with
                  | c :: t => if Ascii.eqb c "."%char then take_digits t else ([], l)
                  | [] => ([], l) end in
  match ip, fp with
  | [], [] => None
  | _, _ => Some (dec_val (digits_value 0 (ip ++ fp))
                          (read_exponent l - Z.of_nat (List.length fp)))
  end.

Definition jsParseFloat (s : list ascii) : option Q :=
  let '(sgn, l) := read_sign (js_trim s) in
  option_map (fun v => inject_Z sgn * v)%Q (read_unsigned l).

(** [Math.round]: the integer closest to [x], ties upwards. *)
Definition math_round (x : Q) : Z := Qfloor (x + (1 # 2))%Q.

(** Exact decimal form of a positive rational: [m * 10^e] with [m] not a
    multiple of ten.  Every IEEE double is such a finite decimal. *)
Fixpoint find_scale (fuel : nat) (p d : Z) (k : nat) : option nat :=
  match fuel with
  | O => None
  | S f => if (p * 10 ^ Z.of_nat k) mod d =? 0 then Some k
           else find_scale f p d (S k)
  end.

Fixpoint strip_zeros (fuel : nat) (m e : Z) : Z * Z :=
  match fuel with
  | O => (m, e)
  | S f => if (m mod 10 =? 0) && (0 <? m) then strip_zeros f (m / 10) (e + 1)
           else (m, e)
  end.

Definition to_decimal (x : Q) : option (Z * Z) :=
  let p := Qnum x in
  let d := Zpos (Qden x) in
  match find_scale (S (Pos.size_nat (Qden x))) p d O with
  | Some k =>
      let m := p * 10 ^ Z.of_nat k / d in
      Some (strip_zeros (Z.to_nat (Z.log2 m + 1)) m (- Z.of_nat k))
  | None => None
  end.

(** [Number::toString] (ECMA-262 6.1.6.1.20) for [m * 10^e], [m > 0]:
    [k] digits, decimal point position [n = k + e]. *)
Definition render_pos (m e : Z) : list ascii :=
  let D := z_digits m in
  let k := Z.of_nat (List.length D) in
  let n := k + e in
  if (k <=? n) && (n <=? 21) then D ++ repeat_char "0"%char (Z.to_nat (n - k))
  else if (0 <? n) && (n <=? 21) then
    firstn (Z.to_nat n) D ++ "."%char :: skipn (Z.to_nat n) D
  else if (-6 <? n) && (n <=? 0) then
    "0"%char :: "."%char :: repeat_char "0"%char (Z.to_nat (- n)) ++ D
  else
    let ex := "e"%char :: (if n - 1 <? 0 then "-"%char else "+"%char)
                :: z_digits (Z.abs (n - 1)) in
    match D with
    | [d] => d :: ex
    | d :: rest => d :: "."%char :: rest ++ ex
    | [] => ex
    end.

(** Whether [render_pos m e] is in plain decimal notation (no exponent). *)
Definition plain_pos (m e : Z) : bool :=
  let n := Z.of_nat (List.length (z_digits m)) + e in (-6 <? n) && (n <=? 21).

Definition Number_toString (x : Q) : list ascii :=
  if qeq x 0%Q then ["0"%char]
  else
    let '(neg, a) := if qlt x 0%Q then (true, Qopp x) else (false, x) in
    let body := match to_decimal a with
                | Some (m, e) => render_pos m e
                | None => list_ascii_of_string "NaN" end in
    if neg then "-"%char :: body else body.

Definition plain_notation (x : Q) : bool :=
  if qeq x 0%Q then true
  else match to_decimal (if qlt x 0%Q then Qopp x else x) with
       | Some (m, e) => plain_pos m e
       | None => false
       end.

(** [Number.prototype.toFixed(f)] (ECMA-262 21.1.3.3). *)
Definition toFixed (f : nat) (x : Q) : list ascii :=
  let '(s, a) := if qlt x 0%Q then (["-"%char], Qopp x) else ([], x) in
  if qle (inject_Z (10 ^ 21)) a then s ++ Number_toString a
  else
    let n := Qfloor (a * inject_Z (10 ^ Z.of_nat f) + (1 # 2))%Q in
    let m := if n =? 0 then ["0"%char] else z_digits n in
    match f with
    | O => s ++ m
    | S _ =>
        let k := List.length m in
        let '(m, k) := if (k <=? f)%nat
                       then (repeat_char "0"%char (f + 1 - k) ++ m, (f + 1)%nat)
                       else (m, k) in
        s ++ firstn (k - f) m ++ "."%char :: skipn (k - f) m
    end.

Definition toFixed_s (f : nat) (x : Q) : string := string_of_list_ascii (toFixed f x).

End JsNum.

(* ------------------------------------------------------------------ *)
(** ** A backtracking matcher for the regular expressions of the parser *)

Module Regex.
Import Chars.

Inductive re : Type :=
| REps
| RClass (f : ascii -> bool)
| RSeq (r1 r2 : re)
| RAlt (r1 r2 : re)
| RRep (lo : nat) (hi : option nat) (r : re).   (** greedy [r{lo,hi}] *)

Fixpoint rep (m : list ascii -> list (list ascii)) (lo fuel : nat) (s : list ascii)
  : list (list ascii) :=
  match fuel with
  | O => if (lo =? 0)%nat then [s] else []
  | S f => flat_map (rep m (pred lo) f) (m s) ++ (if (lo =? 0)%nat then [s] else [])
  end.

(** All ways [r] matches a prefix of [s], as the remaining suffixes, in the
    priority order of a backtracking engine. *)
Fixpoint matches (r : re) (s : list ascii) {struct r} : list (list ascii) :=
  match r with
  | REps => [s]
  | RClass f => match s with c :: t => if f c then [t] else [] | [] => [] end
  | RSeq r1 r2 => flat_map (matches r2) (matches r1 s)
  | RAlt r1 r2 => matches r1 s ++ matches r2 s
  | RRep lo hi r1 =>
      rep (matches r1) lo (match hi with Some h => h | None => List.length s end) s
  end.

(** [RegExp.prototype.test]: a match starting at some position. *)
Fixpoint test (r : re) (s : list ascii) : bool :=
  match matches r s with
  | _ :: _ => true
  | [] => match s with [] => false | _ :: t => test r t end
  end.

(** [String.prototype.match] for [prefix(group)]: the text of the group in
    the leftmost, highest-priority match. *)
Fixpoint match_group (p g : re) (s : list ascii) : option (list ascii) :=
  match flat_map (fun t => map (fun u => (t, u)) (matches g t)) (matches p s) with
  | (t, u) :: _ => Some (firstn (List.length t - List.length u) t)
  | [] => match s with [] => None | _ :: t => match_group p g t end
  end.

Definition chr (c : ascii) : re := RClass (Ascii.eqb c).
(** A literal under the [i] flag (ASCII letters fold). *)
Definition lit_i (s : string) : re :=
  fold_right (fun c r => RSeq (RClass (fun d => Ascii.eqb (lower d) (lower c))) r)
             REps (list_ascii_of_string s).
Definition digit : re := RClass is_digit.
Definition digits (lo hi : nat) : re := RRep lo (Some hi) digit.
Definition plus (f : ascii -> bool) : re := RRep 1 None (RClass f).
Fixpoint alts (rs : list re) : re :=
  match rs with [] => RClass (fun _ => false) | [r] => r | r :: t => RAlt r (alts t) end.

End Regex.

(* ------------------------------------------------------------------ *)
(** ** src/adapters/barchart.ts *)

Module Barchart.
Import Chars JsNum Regex.

Local Notation "a ^^ b" := (String.append a b) (at level 60, right associativity).
Local Open Scope string_scope.

(** [String.prototype.trim] *)
Definition trim_l (l : list ascii) : list ascii :=
  let fix drop l := match l with c :: t => if is_space c then drop t else l | [] => [] end in
  rev (drop (rev (drop l))).
Definition trim (s : string) : string :=
  string_of_list_ascii (trim_l (list_ascii_of_string s)).

Definition upper (c : ascii) : ascii :=
  if (97 <=? code c)%nat && (code c <=? 122)%nat then ascii_of_nat (code c - 32) else c.
Definition toUpperCase (s : string) : string :=
  string_of_list_ascii (map upper (list_ascii_of_string s)).

(** JavaScript [a || b] on numbers: [a] unless it is falsy ([0]). *)
Definition num_or (a b : Q) : Q := if qeq a 0%Q then b else a.

(** [parseNumber]: keep digits, [.] and [-], then [parseFloat], NaN as 0. *)
Definition keep_numeric (c : ascii) : bool :=
  is_digit c || Ascii.eqb c "."%char || Ascii.eqb c "-"%char.

Definition parseNumber (value : string) : Q :=
  match value with
  | EmptyString => 0%Q
  | _ =>
      let cleaned := filter keep_numeric (list_ascii_of_string value) in
      match jsParseFloat cleaned with Some q => q | None => 0%Q end
  end.

(** The private [parseFloat] helper: the same cleaning, then
    [parseFloat(cleaned) || 0], so NaN and 0 both give 0. *)
Definition parseFloat (text : string) : Q :=
  let cleaned := filter keep_numeric (list_ascii_of_string text) in
  match jsParseFloat cleaned with Some q => num_or q 0%Q | None => 0%Q end.

Record PutCallRatioData := mkRow {
  expirationDate : string;
  putVolume : Q;
  callVolume : Q;
  putCallVolumeRatio : Q;
  putOpenInterest : Q;
  callOpenInterest : Q;
  putCallOIRatio : Q;
  totalVolume : Q;
  totalOpenInterest : Q }.

Inductive sentiment := bullish | bearish | neutral.

Record Analysis := mkAnalysis {
  sentiment_of : sentiment;
  interpretation : string;
  keyInsights : list string }.

Record Validation := mkValidation { isValid : bool; warnings : list string }.

Record PutCallRatioAnalysis := mkPCA {
  ticker : string;
  currentPrice : option string;
  overallPutCallVolumeRatio : Q;
  overallPutCallOIRatio : Q;
  totalPutVolume : Q;
  totalCallVolume : Q;
  totalPutOI : Q;
  totalCallOI : Q;
  ratiosByDate : list PutCallRatioData;
  analysis : Analysis;
  validationResult : Validation }.

(** [analyzePutCallSentiment], pushes in the order of the code: the
    volume-ratio branch, the open-interest branch, the trend branch. *)
Definition volume_branch (volumeRatio : Q) : sentiment * string * list string :=
  if qlt (12 # 10) volumeRatio then
    (bearish, "High put/call volume ratio suggests bearish sentiment",
     ["Put/call volume ratio of " ^^ toFixed_s 2 volumeRatio ^^ " indicates heavy put buying"])
  else if qlt volumeRatio (8 # 10) then
    (bullish, "Low put/call volume ratio suggests bullish sentiment",
     ["Put/call volume ratio of " ^^ toFixed_s 2 volumeRatio ^^ " indicates heavy call buying"])
  else
    (neutral, "Put/call volume ratio is within normal range",
     ["Put/call volume ratio of " ^^ toFixed_s 2 volumeRatio ^^ " suggests neutral sentiment"]).

Definition oi_branch (oiRatio : Q) : list string :=
  if qlt 0 oiRatio then
    if qlt (15 # 10) oiRatio then
      ["High put/call open interest ratio of " ^^ toFixed_s 2 oiRatio ^^ " suggests hedging activity"]
    else if qlt oiRatio (5 # 10) then
      ["Low put/call open interest ratio of " ^^ toFixed_s 2 oiRatio ^^ " suggests bullish positioning"]
    else []
  else [].

Definition increasing_insight : string :=
  "Put/call ratios are increasing across recent expiration dates".
Definition decreasing_insight : string :=
  "Put/call ratios are decreasing across recent expiration dates".

Definition trend_branch (rows : list PutCallRatioData) : list string :=
  match rows with
  | d0 :: d1 :: d2 :: _ =>
      let r0 := putCallVolumeRatio d0 in
      let r1 := putCallVolumeRatio d1 in
      let r2 := putCallVolumeRatio d2 in
      let isIncreasing := qlt r1 r0 && qlt r2 r1 in
      let isDecreasing := qlt r0 r1 && qlt r1 r2 in
      if isIncreasing then [increasing_insight]
      else if isDecreasing then [decreasing_insight] else []
  | _ => []
  end.

Definition analyzePutCallSentiment (volumeRatio oiRatio : Q)
    (rows : list PutCallRatioData) : Analysis :=
  let '(s, interp, ki) := volume_branch volumeRatio in
  mkAnalysis s interp (ki ++ oi_branch oiRatio ++ trend_branch rows)%list.

Record TotalsInput := mkTotalsInput {
  d_totalPutVolume : Q;
  d_totalCallVolume : Q;
  d_volumeRatio : Q;
  d_totalPutOI : Q;
  d_totalCallOI : Q;
  d_oiRatio : Q }.

Definition no_data_warning : string := "No put/call volume or open interest data found".

(** [validatePutCallData] *)
Definition validatePutCallData (data : TotalsInput) : Validation :=
  if qeq (d_totalPutVolume data) 0 && qeq (d_totalCallVolume data) 0
     && qeq (d_totalPutOI data) 0 && qeq (d_totalCallOI data) 0
  then mkValidation false [no_data_warning]
  else
    let w1 :=
      if qlt 0 (d_totalCallVolume data) then
        let calculatedRatio := (d_totalPutVolume data / d_totalCallVolume data)%Q in
        if qlt 0 (d_volumeRatio data)
           && qlt (1 # 10) (Qabs (calculatedRatio - d_volumeRatio data))
        then ["Volume ratio mismatch: extracted " ^^ toFixed_s 2 (d_volumeRatio data)
              ^^ ", calculated " ^^ toFixed_s 2 calculatedRatio]
        else []
      else [] in
    let w2 :=
      if qlt 0 (d_totalCallOI data) then
        let calculatedOIRatio := (d_totalPutOI data / d_totalCallOI data)%Q in
        if qlt 0 (d_oiRatio data)
           && qlt (1 # 10) (Qabs (calculatedOIRatio - d_oiRatio data))
        then ["OI ratio mismatch: extracted " ^^ toFixed_s 2 (d_oiRatio data)
              ^^ ", calculated " ^^ toFixed_s 2 calculatedOIRatio]
        else []
      else [] in
    let w3 :=
      if qlt 10 (d_volumeRatio data)
      then ["Unusually high put/call volume ratio: " ^^ toFixed_s 2 (d_volumeRatio data)]
      else [] in
    let w4 :=
      if qlt 5 (d_oiRatio data)
      then ["Unusually high put/call OI ratio: " ^^ toFixed_s 2 (d_oiRatio data)]
      else [] in
    let w5 :=
      if (qlt 0 (d_totalPutVolume data) || qlt 0 (d_totalCallVolume data))
         && qeq (d_volumeRatio data) 0
      then ["Volume data found but ratio not extracted - calculating from volumes"]
      else [] in
    let w6 :=
      if (qlt 0 (d_totalPutOI data) || qlt 0 (d_totalCallOI data))
         && qeq (d_oiRatio data) 0
      then ["Open interest data found but ratio not extracted - calculating from totals"]
      else [] in
    mkValidation true (w1 ++ w2 ++ w3 ++ w4 ++ w5 ++ w6)%list.

(** The page as the cheerio queries of [parsePutCallRatioData] see it.
    [summary_rows]: for each [.bc-futures-options-quotes-totals__data-row]
    inside the summary section ([.bc-futures-options-quotes-totals,
    .bc-put-call-ratio-totals]), the row's text and the text of its [strong]
    elements (no rows when there is no summary section); [page_text] is
    [$.text()]; each table gives its text, the cell texts ([td, th]) of its
    [tbody tr] rows and of all its [tr] rows, in document order. *)
Record Table := mkTable {
  table_text : string;
  tbody_rows : list (list string);
  all_rows : list (list string) }.

Record Page := mkPage {
  price_text : option string;      (** text of the first price element, if any *)
  summary_rows : list (string * string);
  page_text : string;
  tables : list Table }.

Record Totals := mkTotals {
  t_putVolume : Q; t_callVolume : Q; t_volumeRatio : Q;
  t_putOI : Q; t_callOI : Q; t_oiRatio : Q }.

Definition totals0 : Totals := mkTotals 0 0 0 0 0 0.

Definition set_putVolume t v := mkTotals v (t_callVolume t) (t_volumeRatio t) (t_putOI t) (t_callOI t) (t_oiRatio t).
Definition set_callVolume t v := mkTotals (t_putVolume t) v (t_volumeRatio t) (t_putOI t) (t_callOI t) (t_oiRatio t).
Definition set_volumeRatio t v := mkTotals (t_putVolume t) (t_callVolume t) v (t_putOI t) (t_callOI t) (t_oiRatio t).
Definition set_putOI t v := mkTotals (t_putVolume t) (t_callVolume t) (t_volumeRatio t) v (t_callOI t) (t_oiRatio t).
Definition set_callOI t v := mkTotals (t_putVolume t) (t_callVolume t) (t_volumeRatio t) (t_putOI t) v (t_oiRatio t).
Definition set_oiRatio t v := mkTotals (t_putVolume t) (t_callVolume t) (t_volumeRatio t) (t_putOI t) (t_callOI t) v.

(** One data row of the summary section. *)
Definition summary_step (t : Totals) (row : string * string) : Totals :=
  let text := trim (fst row) in
  let strongValue := trim (snd row) in
  if str_includes text "Put Volume Total" then set_putVolume t (parseNumber strongValue)
  else if str_includes text "Call Volume Total" then set_callVolume t (parseNumber strongValue)
  else if str_includes text "Put/Call Volume Ratio" then set_volumeRatio t (parseNumber strongValue)
  else if str_includes text "Put Open Interest Total" then set_putOI t (parseNumber strongValue)
  else if str_includes text "Call Open Interest Total" then set_callOI t (parseNumber strongValue)
  else if str_includes text "Put/Call Open Interest Ratio" then set_oiRatio t (parseNumber strongValue)
  else t.

(** [/<label>[:\s]+([0-9,]+)/i] and [/<label>[:\s]+([0-9.]+)/i] *)
Definition sep_class (c : ascii) : bool := Ascii.eqb c ":"%char || is_space c.
Definition int_class (c : ascii) : bool := is_digit c || Ascii.eqb c ","%char.
Definition dec_class (c : ascii) : bool := is_digit c || Ascii.eqb c "."%char.

Definition label_match (label : string) (cls : ascii -> bool) (text : list ascii)
  : option string :=
  option_map string_of_list_ascii
    (match_group (RSeq (lit_i label) (plus sep_class)) (plus cls) text).

Definition regex_step (text : list ascii) (label : string) (cls : ascii -> bool)
    (set : Totals -> Q -> Totals) (t : Totals) : Totals :=
  match label_match label cls text with
  | Some m => set t (parseNumber m)
  | None => t
  end.

Definition regex_fallback (pageText : string) (t : Totals) : Totals :=
  let text := list_ascii_of_string pageText in
  let t := regex_step text "Put Volume Total" int_class set_putVolume t in
  let t := regex_step text "Call Volume Total" int_class set_callVolume t in
  let t := regex_step text "Put/Call Volume Ratio" dec_class set_volumeRatio t in
  let t := regex_step text "Put Open Interest Total" int_class set_putOI t in
  let t := regex_step text "Call Open Interest Total" int_class set_callOI t in
  regex_step text "Put/Call Open Interest Ratio" dec_class set_oiRatio t.

(** The summary section, the regex fallback when both volume totals are
    still 0, then the ratios computed from the totals when not extracted. *)
Definition extract_totals (page : Page) : Totals :=
  let t := fold_left summary_step (summary_rows page) totals0 in
  let t := if qeq (t_putVolume t) 0 && qeq (t_callVolume t) 0
           then regex_fallback (page_text page) t else t in
  let t := if qeq (t_volumeRatio t) 0 && qlt 0 (t_callVolume t)
           then set_volumeRatio t (t_putVolume t / t_callVolume t)%Q else t in
  if qeq (t_oiRatio t) 0 && qlt 0 (t_callOI t)
  then set_oiRatio t (t_putOI t / t_callOI t)%Q else t.

(** [/\d{1,2}\/\d{1,2}\/\d{4}|\d{4}-\d{2}-\d{2}|Jan|...|Dec/i] *)
Definition date_re : re :=
  alts ([RSeq (digits 1 2) (RSeq (chr "/"%char) (RSeq (digits 1 2)
          (RSeq (chr "/"%char) (digits 4 4))));
         RSeq (digits 4 4) (RSeq (chr "-"%char) (RSeq (digits 2 2)
          (RSeq (chr "-"%char) (digits 2 2))))]
        ++ map lit_i ["Jan"; "Feb"; "Mar"; "Apr"; "May"; "Jun";
                      "Jul"; "Aug"; "Sep"; "Oct"; "Nov"; "Dec"])%list.

Definition ratio_or_computed (num den : Q) : Q :=
  if qlt 0 den then (num / den)%Q else 0%Q.

(** The body of [tableRows.each]: the row it pushes, if any. *)
Definition parse_row (row : list string) : option PutCallRatioData :=
  let cellTexts := map trim row in
  if (3 <=? List.length cellTexts)%nat then
    let firstCell := nth 0 cellTexts "" in
    let isDateRow := test date_re (list_ascii_of_string firstCell) in
    if isDateRow && (6 <=? List.length cellTexts)%nat then
      let expirationDate := firstCell in
      let putVolume := parseNumber (nth 1 cellTexts "") in
      let callVolume := parseNumber (nth 2 cellTexts "") in
      let volumeRatio := num_or (parseNumber (nth 3 cellTexts ""))
                                (ratio_or_computed putVolume callVolume) in
      let putOI := parseNumber (nth 4 cellTexts "") in
      let callOI := parseNumber (nth 5 cellTexts "") in
      let oiRatio := if (6 <? List.length cellTexts)%nat
                     then num_or (parseNumber (nth 6 cellTexts ""))
                                 (ratio_or_computed putOI callOI)
                     else ratio_or_computed putOI callOI in
      if negb (String.eqb expirationDate "") && (qlt 0 putVolume || qlt 0 callVolume)
      then Some (mkRow expirationDate putVolume callVolume volumeRatio putOI callOI
                       oiRatio (putVolume + callVolume)%Q (putOI + callOI)%Q)
      else None
    else None
  else None.

Definition lower_s (s : string) : list ascii := lower_list (list_ascii_of_string s).

(** Which rows are scanned: the [tbody] rows of the first table mentioning
    put/call, expiration or ratio, else every [table tbody tr], and when that
    is empty every [table tr]. *)
Definition select_rows (page : Page) : list (list string) :=
  let tableRows := List.concat (map tbody_rows (tables page)) in
  let ratioTable := filter (fun tb =>
        let tableText := lower_s (table_text tb) in
        includes tableText (list_ascii_of_string "put/call")
        || includes tableText (list_ascii_of_string "expiration")
        || includes tableText (list_ascii_of_string "ratio")) (tables page) in
  let tableRows := match ratioTable with tb :: _ => tbody_rows tb | [] => tableRows end in
  match tableRows with [] => List.concat (map all_rows (tables page)) | _ => tableRows end.

Definition extract_rows (page : Page) : list PutCallRatioData :=
  flat_map (fun row => match parse_row row with Some d => [d] | None => [] end)
           (select_rows page).

Definition sumQ (f : PutCallRatioData -> Q) (rows : list PutCallRatioData) : Q :=
  fold_left (fun sum d => (sum + f d)%Q) rows 0%Q.

(** The synthetic [Overall] row when the table gave nothing. *)
Definition add_overall (t : Totals) (rows : list PutCallRatioData) : list PutCallRatioData :=
  match rows with
  | [] =>
      if qlt 0 (t_putVolume t) || qlt 0 (t_callVolume t) || qlt 0 (t_volumeRatio t)
      then [mkRow "Overall" (t_putVolume t) (t_callVolume t) (t_volumeRatio t)
                  (t_putOI t) (t_callOI t) (t_oiRatio t)
                  (t_putVolume t + t_callVolume t)%Q (t_putOI t + t_callOI t)%Q]
      else []
  | _ => rows
  end.

Definition pos_or (v : Q) (fallback : Q) : Q := if qlt 0 v then v else fallback.

(** [parsePutCallRatioData] *)
Definition parsePutCallRatioData (page : Page) (tick : string) : PutCallRatioAnalysis :=
  let currentPrice := option_map trim (price_text page) in
  let t := extract_totals page in
  let ratiosByDate := add_overall t (extract_rows page) in
  let finalTotalPutVolume := pos_or (t_putVolume t) (sumQ putVolume ratiosByDate) in
  let finalTotalCallVolume := pos_or (t_callVolume t) (sumQ callVolume ratiosByDate) in
  let finalTotalPutOI := pos_or (t_putOI t) (sumQ putOpenInterest ratiosByDate) in
  let finalTotalCallOI := pos_or (t_callOI t) (sumQ callOpenInterest ratiosByDate) in
  let finalVolumeRatio := pos_or (t_volumeRatio t)
        (ratio_or_computed finalTotalPutVolume finalTotalCallVolume) in
  let finalOIRatio := pos_or (t_oiRatio t)
        (ratio_or_computed finalTotalPutOI finalTotalCallOI) in
  let an := analyzePutCallSentiment finalVolumeRatio finalOIRatio ratiosByDate in
  let validation := validatePutCallData
        (mkTotalsInput finalTotalPutVolume finalTotalCallVolume finalVolumeRatio
                       finalTotalPutOI finalTotalCallOI finalOIRatio) in
  mkPCA (toUpperCase tick) currentPrice finalVolumeRatio finalOIRatio
        finalTotalPutVolume finalTotalCallVolume finalTotalPutOI finalTotalCallOI
        ratiosByDate an validation.

End Barchart.

(* ------------------------------------------------------------------ *)
(** ** src/tools/fundamentals.ts: [calculateHealthScore] *)

Module Fundamentals.
Import Chars JsNum.

Local Notation "a ^^ b" := (String.append a b) (at level 60, right associativity).
Local Open Scope string_scope.

(** [FundamentalMetrics] (src/types/index.ts): optional display strings. *)
Record FundamentalMetrics := mkFundamentals {
  f_ticker : string;
  rsi14 : option string; sma200 : option string; pe : option string;
  forwardPE : option string; peg : option string; currentRatio : option string;
  insiderOwn : option string; shortFloat : option string;
  profitMargin : option string; marketCap : option string;
  epsGrowth : option string; salesGrowth : option string;
  debtToEquity : option string; priceToBook : option string;
  returnOnEquity : option string }.

Record Weights := mkWeights {
  w_profitability : Q; w_liquidity : Q; w_leverage : Q; w_efficiency : Q; w_growth : Q }.

(** The defaults of [FinancialHealthSchema]. *)
Definition default_weights : Weights :=
  mkWeights (3 # 10) (2 # 10) (2 # 10) (15 # 100) (15 # 100).

Record Scores := mkScores {
  profitability : Q; liquidity : Q; leverage : Q; efficiency : Q; growth : Q }.

Inductive detail := DStr (s : string) | DNum (q : Q).

Record Interpretation := mkInterpretation {
  i_profitability : string; i_liquidity : string; i_leverage : string;
  i_efficiency : string; i_growth : string }.

Record HealthScore := mkHealthScore {
  overall_score : Z;
  rating : string;
  component_scores : Scores;
  details : list (string * detail);
  interpretation : Interpretation }.

(** [if (fundamentals.x)]: a present, non-empty string. *)
Definition truthy (o : option string) : option string :=
  match o with Some EmptyString => None | _ => o end.

(** [String.prototype.replace('%', '')]: the first occurrence only. *)
Fixpoint replace_first_pct (l : list ascii) : list ascii :=
  match l with
  | [] => []
  | c :: t => if Ascii.eqb c "%"%char then t else c :: replace_first_pct t
  end.

Definition parseFloat_s (s : string) : option Q := jsParseFloat (list_ascii_of_string s).
Definition parsePct (s : string) : option Q :=
  jsParseFloat (replace_first_pct (list_ascii_of_string s)).

Definition show (q : Q) : string := string_of_list_ascii (Number_toString q).

Definition clamp100 (x : Q) : Q := Qmin 100 (Qmax 0 x).

Definition profitability_score (f : FundamentalMetrics) : Q * list (string * detail) :=
  let '(s, d) :=
    match option_map parsePct (truthy (profitMargin f)) with
    | Some (Some margin) =>
        (clamp100 (50 + margin * 2)%Q, [("profit_margin", DStr (show margin ^^ "%"))])
    | _ => (50%Q, [])
    end in
  match option_map parsePct (truthy (returnOnEquity f)) with
  | Some (Some roe) =>
      let roeScore := clamp100 (50 + roe * 3)%Q in
      (((s + roeScore) / 2)%Q, (d ++ [("return_on_equity", DStr (show roe ^^ "%"))])%list)
  | _ => (s, d)
  end.

Definition liquidity_score (f : FundamentalMetrics) : Q * list (string * detail) :=
  match option_map parseFloat_s (truthy (currentRatio f)) with
  | Some (Some ratio) =>
      let sc := if qle (15 # 10) ratio && qle ratio 3 then 90%Q
                else if qle 1 ratio && qlt ratio (15 # 10) then 70%Q
                else if qlt 3 ratio then 60%Q
                else 20%Q in
      (sc, [("current_ratio", DNum ratio)])
  | _ => (50%Q, [])
  end.

Definition leverage_score (f : FundamentalMetrics) : Q * list (string * detail) :=
  match option_map parseFloat_s (truthy (debtToEquity f)) with
  | Some (Some de) =>
      let sc := if qle de (3 # 10) then 90%Q
                else if qle de (6 # 10) then 70%Q
                else if qle de 1 then 50%Q
                else Qmax 10 (50 - (de - 1) * 20)%Q in
      (sc, [("debt_to_equity", DNum de)])
  | _ => (50%Q, [])
  end.

Definition efficiency_score (f : FundamentalMetrics) : Q * list (string * detail) :=
  match option_map parseFloat_s (truthy (pe f)) with
  | Some (Some p) =>
      if qlt 0 p then
        let sc := if qle 10 p && qle p 20 then 80%Q
                  else if qle 5 p && qlt p 10 then 70%Q
                  else if qlt 20 p && qle p 30 then 60%Q
                  else if qlt 30 p then Qmax 20 (60 - (p - 30))%Q
                  else 30%Q in
        (sc, [("price_to_earnings", DNum p)])
      else (50%Q, [])
  | _ => (50%Q, [])
  end.

Definition growth_score (f : FundamentalMetrics) : Q * list (string * detail) :=
  match option_map parsePct (truthy (epsGrowth f)) with
  | Some (Some g) => (clamp100 (50 + g)%Q, [("eps_growth", DStr (show g ^^ "%"))])
  | _ => (50%Q, [])
  end.

Definition band (s : Q) (a b c d : string) : string :=
  if qle 80 s then a else if qle 60 s then b else if qle 40 s then c else d.

Definition getProfitabilityInterpretation (s : Q) := band s
  "Strong profitability metrics" "Adequate profitability"
  "Below average profitability" "Poor profitability performance".
Definition getLiquidityInterpretation (s : Q) := band s
  "Strong liquidity position" "Adequate liquidity" "Liquidity concerns"
  "Poor liquidity position".
Definition getLeverageInterpretation (s : Q) := band s
  "Conservative debt levels" "Manageable debt levels" "Elevated debt levels"
  "High debt burden".
Definition getEfficiencyInterpretation (s : Q) := band s
  "Attractive valuation" "Fair valuation" "Expensive valuation"
  "Very expensive or concerning valuation".
Definition getGrowthInterpretation (s : Q) := band s
  "Strong growth prospects" "Moderate growth expected"
  "Limited growth prospects" "Declining or negative growth".

Definition rating_of (overallScore : Z) : string :=
  if Z.leb 80 overallScore then "Excellent"
  else if Z.leb 70 overallScore then "Good"
  else if Z.leb 60 overallScore then "Fair"
  else if Z.leb 40 overallScore then "Below Average"
  else "Poor".

Definition calculateHealthScore (f : FundamentalMetrics) (w : Weights) : HealthScore :=
  let '(p, d1) := profitability_score f in
  let '(l, d2) := liquidity_score f in
  let '(v, d3) := leverage_score f in
  let '(e, d4) := efficiency_score f in
  let '(g, d5) := growth_score f in
  let scores := mkScores p l v e g in
  let overallScore := math_round
        (p * w_profitability w + l * w_liquidity w + v * w_leverage w
         + e * w_efficiency w + g * w_growth w)%Q in
  mkHealthScore overallScore (rating_of overallScore) scores
    (d1 ++ d2 ++ d3 ++ d4 ++ d5)%list
    (mkInterpretation (getProfitabilityInterpretation p) (getLiquidityInterpretation l)
       (getLeverageInterpretation v) (getEfficiencyInterpretation e)
       (getGrowthInterpretation g)).

End Fundamentals.

(* ------------------------------------------------------------------ *)
(** ** src/tools/insider.ts *)

Module Insider.
Import Chars JsNum.

Local Notation "a ^^ b" := (String.append a b) (at level 60, right associativity).
Local Open Scope string_scope.

(** [InsiderTransaction] (src/types/index.ts) *)
Record InsiderTransaction := mkTransaction {
  insider : string;
  relationship : string;
  date : string;
  transactionType : string;
  cost : string;
  shares : string;
  value : string;
  sharesTotal : string }.

(** [parseTransactionValue]: drop [$], [,] and white space; a [-] or [(]
    left anywhere makes the value negative; drop [-], [(] and [)]; then
    [parseFloat], NaN as 0. *)
Definition is_strip (c : ascii) : bool :=
  Ascii.eqb c "$"%char || Ascii.eqb c ","%char || is_space c.
Definition is_sign (c : ascii) : bool :=
  Ascii.eqb c "-"%char || Ascii.eqb c "("%char || Ascii.eqb c ")"%char.

Definition parseTransactionValue (valueStr : string) : Q :=
  let cleaned := filter (fun c => negb (is_strip c)) (list_ascii_of_string valueStr) in
  let isNegative := existsb (Ascii.eqb "-"%char) cleaned
                    || existsb (Ascii.eqb "("%char) cleaned in
  let numStr := filter (fun c => negb (is_sign c)) cleaned in
  match jsParseFloat numStr with
  | None => 0%Q
  | Some v => if isNegative then Qopp (Qabs v) else Qabs v
  end.

Definition has_keyword (type : string) (keywords : list string) : bool :=
  existsb (fun k => str_includes type k) keywords.

Definition isBuyTransaction (type : string) : bool :=
  has_keyword type ["buy"; "purchase"; "acquire"; "exercise"; "conversion"].
Definition isSellTransaction (type : string) : bool :=
  has_keyword type ["sell"; "sale"; "dispose"; "gift"].

(** [String.prototype.toLowerCase] on the Latin-1 range: [A-Z] and the
    letters [U+00C0 .. U+00DE] except [U+00D7] move up by 32. *)
Definition js_lower (c : ascii) : ascii :=
  let n := code c in
  if (Nat.leb 65 n && Nat.leb n 90) || (Nat.leb 192 n && Nat.leb n 222 && negb (Nat.eqb n 215))
  then ascii_of_nat (n + 32)%nat else c.

Definition js_toLowerCase (s : string) : string :=
  string_of_list_ascii (map js_lower (list_ascii_of_string s)).

(** [transaction.transactionType.toLowerCase()] and
    [transaction.relationship.toLowerCase()]. *)
Definition toLowerCase (s : string) : string := js_toLowerCase s.

Record InsiderType := mkInsiderType { buys : nat; sells : nat; net_value : Q }.

(** [insiderTypes], an object keyed by relationship, as an association
    list in insertion order. *)
Definition types_map := list (string * InsiderType).

Fixpoint lookup (m : types_map) (k : string) : option InsiderType :=
  match m with
  | [] => None
  | (k', v) :: t => if String.eqb k k' then Some v else lookup t k
  end.

Fixpoint update (m : types_map) (k : string) (f : InsiderType -> InsiderType) : types_map :=
  match m with
  | [] => []
  | (k', v) :: t => if String.eqb k k' then (k', f v) :: t else (k', v) :: update t k f
  end.

Inductive confidence := high | medium | low.

Record TransactionSummary := mkSummary {
  total_transactions : nat;
  buy_transactions : nat;
  sell_transactions : nat;
  total_buy_value : Q;
  total_sell_value : Q;
  net_value_s : option Q;
  buy_ratio : option Q }.

Record InsiderSentiment := mkInsiderSentiment {
  overall_sentiment : Barchart.sentiment;
  confidence_level : confidence;
  transaction_summary : TransactionSummary;
  key_insights : list string;
  insider_types : types_map;
  recent_significant_transactions : option (list InsiderTransaction) }.

Definition no_activity_insight : string :=
  "No significant insider transactions found in the analysis period".

Definition toFixed1 (q : Q) : string := toFixed_s 1 q.

(** [generateInsiderInsights] *)
Definition generateInsiderInsights (buyTransactions sellTransactions : list InsiderTransaction)
    (totalBuyValue totalSellValue : Q) (insiderTypes : types_map) : list string :=
  let netValue := (totalBuyValue - totalSellValue)%Q in
  let i1 := if qlt 100000 netValue then
              ["Net insider buying of $" ^^ toFixed1 (netValue / 1000000)%Q
               ^^ "M indicates positive sentiment"]
            else if qlt netValue (-100000) then
              ["Net insider selling of $" ^^ toFixed1 (Qabs netValue / 1000000)%Q
               ^^ "M may indicate profit-taking or lack of confidence"]
            else [] in
  let ceoActivity := match lookup insiderTypes "ceo" with
                     | Some a => Some a
                     | None => lookup insiderTypes "chief executive officer" end in
  let i2 := match ceoActivity with
            | Some a => if qlt 50000 (net_value a)
                        then ["CEO showing confidence with net buying activity"]
                        else if qlt (net_value a) (-50000)
                        then ["CEO has been net selling shares"] else []
            | None => [] end in
  let directorNetValue :=
    fold_left (fun sum '(k, v) =>
                 if str_includes k "director" || str_includes k "board"
                 then (sum + net_value v)%Q else sum) insiderTypes 0%Q in
  let i3 := if qlt 100000 directorNetValue
            then ["Board members showing confidence with net buying"] else [] in
  let nb := List.length buyTransactions in
  let ns := List.length sellTransactions in
  let i4 := if (ns * 2 <? nb)%nat
            then ["Significantly more buy transactions than sell transactions"]
            else if (nb * 2 <? ns)%nat
            then ["Significantly more sell transactions than buy transactions"] else [] in
  match (i1 ++ i2 ++ i3 ++ i4)%list with
  | [] => ["Mixed insider activity with no clear directional bias"]
  | l => l
  end.

(** [getSignificantTransactions]: a stable sort on decreasing absolute
    value, then the first [limit]. *)
Definition abs_value (t : InsiderTransaction) : Q := Qabs (parseTransactionValue (value t)).

Fixpoint insert_desc (x : InsiderTransaction) (l : list InsiderTransaction) :=
  match l with
  | [] => [x]
  | y :: t => if qlt (abs_value y) (abs_value x) then x :: l else y :: insert_desc x t
  end.

Definition getSignificantTransactions (transactions : list InsiderTransaction) (limit : nat) :=
  firstn limit (fold_left (fun acc x => insert_desc x acc) transactions []).

Record Tally := mkTally {
  buyTxs : list InsiderTransaction; sellTxs : list InsiderTransaction;
  totalBuy : Q; totalSell : Q; types : types_map }.

(** The body of [relevantTransactions.forEach]. *)
Definition tally_step (st : Tally) (t : InsiderTransaction) : Tally :=
  let v := parseTransactionValue (value t) in
  let type := toLowerCase (transactionType t) in
  let rel := toLowerCase (relationship t) in
  let ty := match lookup (types st) rel with
            | Some _ => types st
            | None => (types st ++ [(rel, mkInsiderType 0 0 0)])%list end in
  if isBuyTransaction type then
    mkTally (buyTxs st ++ [t])%list (sellTxs st) (totalBuy st + Qabs v)%Q (totalSell st)
      (update ty rel (fun a => mkInsiderType (S (buys a)) (sells a) (net_value a + Qabs v)%Q))
  else if isSellTransaction type then
    mkTally (buyTxs st) (sellTxs st ++ [t])%list (totalBuy st) (totalSell st + Qabs v)%Q
      (update ty rel (fun a => mkInsiderType (buys a) (S (sells a)) (net_value a - Qabs v)%Q))
  else mkTally (buyTxs st) (sellTxs st) (totalBuy st) (totalSell st) ty.

(** [calculateInsiderSentiment].  The clock and the date parser enter as
    parameters: [cutoffDate] is the time value of [new Date()] moved back
    [analysisPeriod] days, and [parseTransactionDate] gives the time value
    of a transaction's date (it depends on the local time zone and, in its
    fallback, on the engine's [Date] parser). *)
Definition is_relevant (parseTransactionDate : string -> Z) (cutoffDate : Z) (minValue : Q)
    (t : InsiderTransaction) : bool :=
  (cutoffDate <=? parseTransactionDate (date t))%Z
  && qle minValue (Qabs (parseTransactionValue (value t))).

Definition calculateInsiderSentiment (parseTransactionDate : string -> Z) (cutoffDate : Z)
    (transactions : list InsiderTransaction) (minValue : Q) : InsiderSentiment :=
  let relevantTransactions :=
    filter (is_relevant parseTransactionDate cutoffDate minValue) transactions in
  match relevantTransactions with
  | [] =>
      mkInsiderSentiment Barchart.neutral low (mkSummary 0 0 0 0 0 None None)
        [no_activity_insight] [] None
  | _ =>
      let st := fold_left tally_step relevantTransactions (mkTally [] [] 0 0 []) in
      let netValue := (totalBuy st - totalSell st)%Q in
      let totalValue := (totalBuy st + totalSell st)%Q in
      let buyRatio := if qlt 0 totalValue then (totalBuy st / totalValue)%Q else 0%Q in
      let overallSentiment :=
        if qle (7 # 10) buyRatio then Barchart.bullish
        else if qle buyRatio (3 # 10) then Barchart.bearish else Barchart.neutral in
      let n := List.length relevantTransactions in
      let confidenceLevel :=
        if (10 <=? n)%nat && qle 1000000 totalValue then high
        else if (5 <=? n)%nat && qle 500000 totalValue then medium else low in
      let keyInsights := generateInsiderInsights (buyTxs st) (sellTxs st)
                           (totalBuy st) (totalSell st) (types st) in
      mkInsiderSentiment overallSentiment confidenceLevel
        (mkSummary n (List.length (buyTxs st)) (List.length (sellTxs st))
           (totalBuy st) (totalSell st) (Some netValue)
           (Some (inject_Z (math_round (buyRatio * 100)) / 100)%Q))
        keyInsights (types st)
        (Some (getSignificantTransactions relevantTransactions 5))
  end.

(** [Array.prototype.slice(0, end)]: [end] is truncated towards zero, a
    negative [end] counts from the end of the array. *)
Definition slice0 {A} (l : list A) (end_ : Q) : list A :=
  let len := Z.of_nat (List.length l) in
  let k := Z.quot (Qnum end_) (Zpos (Qden end_)) in
  let e := if (k <? 0)%Z then Z.max 0 (len + k) else Z.min k len in
  firstn (Z.to_nat e) l.

(** The type filter of [getInsiderActivity]: when [transaction_types] is
    given and not empty, keep the transactions whose type contains one of
    them, both sides lower-cased. *)
Definition filterTransactions (transaction_types : option (list string))
    (transactions : list InsiderTransaction) : list InsiderTransaction :=
  match transaction_types with
  | Some ((_ :: _) as types) =>
      filter (fun transaction =>
                existsb (fun type => str_includes (js_toLowerCase (transactionType transaction))
                                                  (js_toLowerCase type)) types)
             transactions
  | _ => transactions
  end.

(** [limitedTransactions] of [getInsiderActivity] once the transactions
    are fetched: [filteredTransactions.slice(0, limit)]. *)
Definition selectInsiderActivity (transaction_types : option (list string)) (limit : Q)
    (transactions : list InsiderTransaction) : list InsiderTransaction :=
  slice0 (filterTransactions transaction_types transactions) limit.

End Insider.

(* ------------------------------------------------------------------ *)
(** ** src/tools/insider.ts: the news helpers *)

Module News.
Import Chars JsNum Insider.

Local Notation "a ^^ b" := (String.append a b) (at level 60, right associativity).
Local Open Scope string_scope.

(** The fields of an article the helpers read; an absent field is [None]
    (an absent headline prints as [undefined] in the template string). *)
Record Article := mkArticle {
  headline : option string;
  summary : option string;
  source : option string }.

(** [`${article.headline} ${article.summary || ''}`.toLowerCase()] *)
Definition article_text (article : Article) : string :=
  js_toLowerCase (match headline article with Some h => h | None => "undefined" end ^^ " " ^^
                  match summary article with Some s => s | None => "" end).

Definition keywordCategories : list (string * list string) :=
  [("earnings", ["earnings"; "revenue"; "profit"; "loss"; "eps"; "quarterly"; "annual"]);
   ("merger", ["merger"; "acquisition"; "buyout"; "takeover"; "deal"]);
   ("product", ["product"; "launch"; "release"; "innovation"; "patent"]);
   ("management", ["ceo"; "cfo"; "executive"; "management"; "leadership"; "resignation"]);
   ("regulation", ["regulation"; "regulatory"; "fda"; "sec"; "compliance"; "approval"]);
   ("partnership", ["partnership"; "collaboration"; "alliance"; "joint venture"]);
   ("legal", ["lawsuit"; "litigation"; "settlement"; "court"; "legal"]);
   ("upgrade", ["upgrade"; "downgrade"; "rating"; "analyst"; "target price"])].

Definition mentions (text : string) (keywords : list string) : bool :=
  existsb (fun keyword => str_includes text keyword) keywords.

(** [Set.prototype.add] on a set kept in insertion order. *)
Definition set_add (themes : list string) (theme : string) : list string :=
  if existsb (String.eqb theme) themes then themes else (themes ++ [theme])%list.

(** [extractNewsThemes]: [Array.from] of the set, in insertion order. *)
Definition extractNewsThemes (articles : list Article) : list string :=
  fold_left (fun themes article =>
               let text := article_text article in
               fold_left (fun themes '(theme, keywords) =>
                            if mentions text keywords then set_add themes theme else themes)
                         keywordCategories themes)
            articles [].

Inductive urgency := high | medium | low.

Definition urgentKeywords : list string :=
  ["breaking"; "urgent"; "alert"; "emergency"; "crisis"; "bankruptcy";
   "scandal"; "investigation"; "halt"; "suspended"; "delisting"].

Definition moderateKeywords : list string :=
  ["earnings"; "acquisition"; "merger"; "partnership"; "approval";
   "launch"; "upgrade"; "downgrade"].

(** [assessNewsUrgency] *)
Definition assessNewsUrgency (articles : list Article) : urgency :=
  let urgentCount :=
    List.length (filter (fun article => mentions (article_text article) urgentKeywords) articles) in
  let moderateCount :=
    List.length (filter (fun article => mentions (article_text article) moderateKeywords) articles) in
  if (0 <? urgentCount)%nat then high
  else if (2 <=? moderateCount)%nat then medium
  else low.

Definition highCredibilitySources : list string :=
  ["reuters"; "bloomberg"; "wall street journal"; "wsj"; "financial times";
   "ft"; "associated press"; "ap"; "cnbc"; "marketwatch"; "yahoo finance"].

Definition mediumCredibilitySources : list string :=
  ["cnn"; "fox business"; "seeking alpha"; "motley fool"; "investopedia";
   "barrons"; "forbes"; "business insider"; "thestreet"].

Record Categorized := mkCategorized {
  high_credibility : list (option string);
  medium_credibility : list (option string);
  low_credibility : list (option string) }.

(** [Array.prototype.includes] (SameValueZero: [undefined] equals itself). *)
Definition opt_eqb (a b : option string) : bool :=
  match a, b with
  | Some x, Some y => String.eqb x y
  | None, None => true
  | _, _ => false
  end.

Definition push_new (l : list (option string)) (x : option string) : list (option string) :=
  if existsb (opt_eqb x) l then l else (l ++ [x])%list.

(** [article.source?.toLowerCase() || ''] *)
Definition source_key (src : option string) : string :=
  match src with Some s => js_toLowerCase s | None => "" end.

Definition categorize_step (c : Categorized) (article : Article) : Categorized :=
  let src := source_key (source article) in
  if mentions src highCredibilitySources then
    mkCategorized (push_new (high_credibility c) (source article))
                  (medium_credibility c) (low_credibility c)
  else if mentions src mediumCredibilitySources then
    mkCategorized (high_credibility c)
                  (push_new (medium_credibility c) (source article)) (low_credibility c)
  else
    mkCategorized (high_credibility c) (medium_credibility c)
                  (push_new (low_credibility c) (source article)).

(** [categorizeNewsSources] *)
Definition categorizeNewsSources (articles : list Article) : Categorized :=
  fold_left categorize_step articles (mkCategorized [] [] []).

End News.

(* ================================================================== *)
(** * Properties *)

Import Chars JsNum Regex.

Lemma qlt_true (x y : Q) : qlt x y = true <-> (x < y)%Q.
Proof.
  unfold qlt; rewrite negb_true_iff; split; intro H.
  - apply Qnot_le_lt; intro H'; apply Qle_bool_iff in H'; congruence.
  - destruct (Qle_bool y x) eqn:E; [|reflexivity].
    apply Qle_bool_iff in E; exfalso; exact (Qlt_not_le _ _ H E).
Qed.

Lemma qlt_false (x y : Q) : qlt x y = false <-> (y <= x)%Q.
Proof.
  unfold qlt; rewrite negb_false_iff; apply Qle_bool_iff.
Qed.

Lemma qle_true (x y : Q) : qle x y = true <-> (x <= y)%Q.
Proof. apply Qle_bool_iff. Qed.

Lemma qle_false (x y : Q) : qle x y = false <-> (y < x)%Q.
Proof.
  unfold qle; split; intro H.
  - apply Qnot_le_lt; intro H'; apply Qle_bool_iff in H'; congruence.
  - destruct (Qle_bool x y) eqn:E; [|reflexivity].
    apply Qle_bool_iff in E; exfalso; exact (Qlt_not_le _ _ H E).
Qed.

Lemma qeq_true (x y : Q) : qeq x y = true <-> (x == y)%Q.
Proof. apply Qeq_bool_iff. Qed.

Lemma qeq_false (x y : Q) : qeq x y = false <-> ~ (x == y)%Q.
Proof.
  unfold qeq; split; intro H.
  - intro E; apply Qeq_bool_iff in E; congruence.
  - destruct (Qeq_bool x y) eqn:E; [|reflexivity].
    apply Qeq_bool_iff in E; contradiction.
Qed.

(** Turn the boolean comparisons of the model into hypotheses on [Q]. *)
Ltac qbool :=
  repeat match goal with
  | H : qlt _ _ = true |- _ => apply qlt_true in H
  | H : qlt _ _ = false |- _ => apply qlt_false in H
  | H : qle _ _ = true |- _ => apply qle_true in H
  | H : qle _ _ = false |- _ => apply qle_false in H
  | H : qeq _ _ = true |- _ => apply qeq_true in H
  | H : qeq _ _ = false |- _ => apply qeq_false in H
  end.

Module BarchartFacts.
Import Barchart.
Local Open Scope string_scope.

Lemma volume_branch_shape (vr : Q) :
  exists s interp str,
    volume_branch vr = (s, interp, [str]) /\
    exists pre suf, str = (pre ++ toFixed_s 2 vr ++ suf)%string.
Proof.
  unfold volume_branch.
  destruct (qlt (12 # 10) vr); [|destruct (qlt vr (8 # 10))];
    (do 3 eexists; split; [reflexivity|]; do 2 eexists; reflexivity).
Qed.

(** C1. The volume-ratio branch of [analyzePutCallSentiment]: above 1.2
    bearish, below 0.8 bullish, otherwise neutral; the branch pushes exactly
    one insight, the first of the list, and it embeds the ratio with two
    decimals; the ratio 1.5 gives bearish and an insight with "1.50", the
    ratio 0.5 gives bullish. *)
Theorem c1_volume_ratio_sentiment :
  (forall (vr oi : Q) (rows : list PutCallRatioData),
     let a := analyzePutCallSentiment vr oi rows in
     ((12 # 10) < vr -> sentiment_of a = bearish)%Q /\
     (vr < (8 # 10) -> sentiment_of a = bullish)%Q /\
     ((8 # 10) <= vr -> vr <= (12 # 10) -> sentiment_of a = neutral)%Q /\
     exists s, keyInsights a = (s :: oi_branch oi ++ trend_branch rows)%list /\
       exists pre suf, s = (pre ++ toFixed_s 2 vr ++ suf)%string) /\
  (forall oi rows,
     sentiment_of (analyzePutCallSentiment (15 # 10) oi rows) = bearish /\
     exists s rest pre suf,
       keyInsights (analyzePutCallSentiment (15 # 10) oi rows) = s :: rest /\
       s = (pre ++ "1.50" ++ suf)%string) /\
  (forall oi rows, sentiment_of (analyzePutCallSentiment (5 # 10) oi rows) = bullish).
Proof.
  split; [|split].
  - intros vr oi rows a; subst a.
    destruct (volume_branch_shape vr) as (s & interp & str & Hv & Hstr).
    unfold analyzePutCallSentiment; rewrite Hv; cbn [sentiment_of keyInsights].
    unfold volume_branch in Hv.
    destruct (qlt (12 # 10) vr) eqn:E1; [|destruct (qlt vr (8 # 10)) eqn:E2];
      injection Hv as <- _ _; qbool.
    + split; [reflexivity|]; split; [intro; exfalso; apply (Qlt_irrefl vr);
        apply Qlt_trans with (8 # 10); [assumption|];
        apply Qlt_trans with (12 # 10); [reflexivity|assumption]|].
      split; [intros _ H; exfalso; apply (Qlt_not_le _ _ E1 H)|].
      eexists; split; [reflexivity|exact Hstr].
    + split; [intro H; exfalso; apply (Qlt_not_le _ _ H E1)|].
      split; [reflexivity|].
      split; [intros H _; exfalso; apply (Qlt_not_le _ _ E2 H)|].
      eexists; split; [reflexivity|exact Hstr].
    + split; [intro H; exfalso; apply (Qlt_not_le _ _ H E1)|].
      split; [intro H; exfalso; apply (Qlt_not_le _ _ H E2)|].
      split; [reflexivity|].
      eexists; split; [reflexivity|exact Hstr].
  - intros oi rows; split; [reflexivity|].
    do 4 eexists; split; [reflexivity|].
    instantiate (1 := " indicates heavy put buying").
    instantiate (1 := "Put/call volume ratio of "). reflexivity.
  - intros; reflexivity.
Qed.

(** C2. [validatePutCallData] reports invalid data exactly when the four
    totals are all zero, with the no-data warning; otherwise it is valid. *)
Theorem c2_validate_isValid (d : TotalsInput) :
  (isValid (validatePutCallData d) = false <->
     (d_totalPutVolume d == 0 /\ d_totalCallVolume d == 0 /\
      d_totalPutOI d == 0 /\ d_totalCallOI d == 0)%Q) /\
  ((d_totalPutVolume d == 0 /\ d_totalCallVolume d == 0 /\
    d_totalPutOI d == 0 /\ d_totalCallOI d == 0)%Q ->
   In no_data_warning (warnings (validatePutCallData d))) /\
  (~ (d_totalPutVolume d == 0 /\ d_totalCallVolume d == 0 /\
      d_totalPutOI d == 0 /\ d_totalCallOI d == 0)%Q ->
   isValid (validatePutCallData d) = true).
Proof.
  unfold validatePutCallData.
  destruct (qeq (d_totalPutVolume d) 0) eqn:E1, (qeq (d_totalCallVolume d) 0) eqn:E2,
           (qeq (d_totalPutOI d) 0) eqn:E3, (qeq (d_totalCallOI d) 0) eqn:E4;
    cbn [andb isValid warnings]; qbool;
    (split; [split|split]); intros; try tauto;
    try (left; reflexivity); try discriminate;
    exfalso; intuition.
Qed.







(** C6 (as amended).  With no row from the table, the parser adds exactly
    one [Overall] row carrying the totals when the extracted put volume,
    call volume or volume ratio is positive, and no row otherwise, whatever
    the open-interest totals are; so a positive total put or call volume
    always comes with at least one row. *)
Theorem c6_overall_row :
  (forall (page : Page) (tick : string),
     extract_rows page = [] ->
     let t := extract_totals page in
     (0 < t_putVolume t \/ 0 < t_callVolume t \/ 0 < t_volumeRatio t)%Q ->
     ratiosByDate (parsePutCallRatioData page tick) =
       [mkRow "Overall" (t_putVolume t) (t_callVolume t) (t_volumeRatio t)
              (t_putOI t) (t_callOI t) (t_oiRatio t)
              (t_putVolume t + t_callVolume t)%Q (t_putOI t + t_callOI t)%Q]) /\
  (forall (page : Page) (tick : string),
     extract_rows page = [] ->
     let t := extract_totals page in
     ~ (0 < t_putVolume t \/ 0 < t_callVolume t \/ 0 < t_volumeRatio t)%Q ->
     ratiosByDate (parsePutCallRatioData page tick) = []) /\
  (forall (page : Page) (tick : string),
     let a := parsePutCallRatioData page tick in
     (0 < totalPutVolume a \/ 0 < totalCallVolume a)%Q ->
     (1 <= List.length (ratiosByDate a))%nat).
Proof.
  split.
  - intros page tick Hrows t Hpos.
    unfold parsePutCallRatioData; cbv zeta; cbn [ratiosByDate].
    rewrite Hrows; unfold add_overall; fold t.
    replace (qlt 0 (t_putVolume t) || qlt 0 (t_callVolume t) || qlt 0 (t_volumeRatio t))
      with true; [reflexivity|].
    symmetry; rewrite !orb_true_iff, !qlt_true; tauto.
  - split.
    + intros page tick Hrows t Hneg.
      unfold parsePutCallRatioData; cbv zeta; cbn [ratiosByDate].
      rewrite Hrows; unfold add_overall; fold t.
      replace (qlt 0 (t_putVolume t) || qlt 0 (t_callVolume t) || qlt 0 (t_volumeRatio t))
        with false; [reflexivity|].
      symmetry; apply not_true_is_false; rewrite !orb_true_iff, !qlt_true; tauto.
  + intros page tick; cbv zeta; unfold parsePutCallRatioData; cbv zeta.
      cbn [ratiosByDate totalPutVolume totalCallVolume].
      destruct (add_overall (extract_totals page) (extract_rows page)) as [|r rs] eqn:E;
        [|intros; cbn; lia].
      unfold add_overall in E.
      destruct (extract_rows page) as [|r rs]; [|discriminate].
      destruct (qlt 0 (t_putVolume (extract_totals page))) eqn:E1; [discriminate|].
      destruct (qlt 0 (t_callVolume (extract_totals page))) eqn:E2; [discriminate|].
      unfold pos_or; rewrite E1, E2; cbn.
      intros [H|H]; exfalso; exact (Qlt_irrefl _ H).
Qed.

(** A summary section with open-interest totals only. *)
Definition c6_page : Page :=
  mkPage None [("Put Open Interest Total", "100"); ("Call Open Interest Total", "50")] "" [].

(** C6 as stated fails: open-interest totals alone give no row. *)
Lemma c6_oi_only_no_row :
  let a := parsePutCallRatioData c6_page "XYZ" in
  (totalPutOI a == 100 /\ totalCallOI a == 50)%Q /\ ratiosByDate a = [].
Proof. vm_compute. split; [split|]; reflexivity. Qed.

(** Witnesses: the claims' theorems applied at concrete inputs. *)
Lemma c1_witness :
  sentiment_of (analyzePutCallSentiment 2%Q 0%Q []) = bearish /\
  sentiment_of (analyzePutCallSentiment 1%Q 0%Q []) = neutral.
Proof.
  split.
  - apply (proj1 (proj1 c1_volume_ratio_sentiment 2%Q 0%Q [])); reflexivity.
  - apply (proj1 (proj2 (proj2 (proj1 c1_volume_ratio_sentiment 1%Q 0%Q []))));
      vm_compute; discriminate.
Defined.

Lemma c2_witness :
  isValid (validatePutCallData (mkTotalsInput 0 0 0 0 0 0)) = false /\
  In no_data_warning (warnings (validatePutCallData (mkTotalsInput 0 0 0 0 0 0))) /\
  isValid (validatePutCallData (mkTotalsInput 1 0 0 0 0 0)) = true.
Proof.
  split; [|split].
  - apply (proj2 (proj1 (c2_validate_isValid (mkTotalsInput 0 0 0 0 0 0)))).
    cbn; repeat split; reflexivity.
  - apply (proj1 (proj2 (c2_validate_isValid (mkTotalsInput 0 0 0 0 0 0)))).
    cbn; repeat split; reflexivity.
  - apply (proj2 (proj2 (c2_validate_isValid (mkTotalsInput 1 0 0 0 0 0)))).
    cbn; intros [H _]; discriminate H.
Defined.


(** A summary section with a put volume total only. *)
Definition c6_witness_page : Page :=
  mkPage None [("Put Volume Total", "1,000")] "" [].

Lemma c6_witness :
  ratiosByDate (parsePutCallRatioData c6_witness_page "XYZ") =
    [mkRow "Overall" 1000 0 0 0 0 0 (1000 + 0)%Q (0 + 0)%Q] /\
  ratiosByDate (parsePutCallRatioData (mkPage None [] "" []) "XYZ") = [] /\
  (1 <= List.length (ratiosByDate (parsePutCallRatioData c6_witness_page "XYZ")))%nat.
Proof.
  split; [|split].
  - apply (proj1 c6_overall_row); [vm_compute; reflexivity|].
    vm_compute; left; reflexivity.
  - apply (proj1 (proj2 c6_overall_row)); [vm_compute; reflexivity|].
    vm_compute; intros [H|[H|H]]; discriminate H.
  - apply (proj2 (proj2 c6_overall_row)); vm_compute; left; reflexivity.
Defined.

Lemma volume_insights_not_trend (vr : Q) :
  forall s, In s (snd (volume_branch vr)) ->
  s <> increasing_insight /\ s <> decreasing_insight.
Proof.
  unfold volume_branch; intro s;
    destruct (qlt (12 # 10) vr); [|destruct (qlt vr (8 # 10))];
    cbn [snd In]; intros [<-|[]]; split; discriminate.
Qed.

Lemma oi_insights_not_trend (oi : Q) :
  forall s, In s (oi_branch oi) -> s <> increasing_insight /\ s <> decreasing_insight.
Proof.
  unfold oi_branch; intro s;
    destruct (qlt 0 oi); [destruct (qlt (15 # 10) oi); [|destruct (qlt oi (5 # 10))]|];
    cbn [In]; try (intros [<-|[]]; split; discriminate); intros [].
Qed.

(** C7 (as amended).  With at least three rows and [r0], [r1], [r2] the
    volume ratios of the first three in list order, the "increasing"
    insight is present exactly when [r0 > r1 > r2] and the "decreasing"
    insight exactly when [r0 < r1 < r2]; otherwise (also when two adjacent
    ratios are equal) there is no trend insight. *)
Theorem c7_trend_insight (vr oi : Q) (d0 d1 d2 : PutCallRatioData) (rest : list PutCallRatioData) :
  let a := analyzePutCallSentiment vr oi (d0 :: d1 :: d2 :: rest) in
  let r0 := putCallVolumeRatio d0 in
  let r1 := putCallVolumeRatio d1 in
  let r2 := putCallVolumeRatio d2 in
  (In increasing_insight (keyInsights a) <-> (r1 < r0 /\ r2 < r1)%Q) /\
  (In decreasing_insight (keyInsights a) <-> (r0 < r1 /\ r1 < r2)%Q).
Proof.
  intros a r0 r1 r2.
  assert (Hk : keyInsights a = (snd (volume_branch vr) ++ oi_branch oi
                                ++ trend_branch (d0 :: d1 :: d2 :: rest))%list).
  { unfold a, analyzePutCallSentiment; destruct (volume_branch vr) as [[s i] k]; reflexivity. }
  pose proof (volume_insights_not_trend vr) as V.
  pose proof (oi_insights_not_trend oi) as O.
  assert (Ht : forall x, x = increasing_insight \/ x = decreasing_insight ->
             (In x (keyInsights a) <-> In x (trend_branch (d0 :: d1 :: d2 :: rest)))).
  { intros x Hx; rewrite Hk, !in_app_iff; split; [|tauto].
    intros [H|[H|H]]; [apply V in H|apply O in H|exact H]; exfalso;
      destruct Hx; tauto. }
  rewrite !Ht by tauto.
  unfold trend_branch; fold r0 r1 r2.
  assert (Hid : increasing_insight <> decreasing_insight) by discriminate.
  destruct (qlt r1 r0) eqn:A, (qlt r2 r1) eqn:B, (qlt r0 r1) eqn:C, (qlt r1 r2) eqn:D;
    cbn [andb In]; qbool; intuition (try congruence; try lra).
Qed.

Definition ratio_row (r : Q) : PutCallRatioData := mkRow "Jan" 1 1 r 0 0 0 2 0.

(** C7 as stated fails on the direction: ratios 1, 2, 3 (increasing in list
    order) give the "decreasing" insight and no "increasing" one. *)
Lemma c7_list_order_reversed :
  keyInsights (analyzePutCallSentiment 1 0 [ratio_row 1; ratio_row 2; ratio_row 3]) =
    ["Put/call volume ratio of 1.00 suggests neutral sentiment"; decreasing_insight] /\
  ~ In increasing_insight
      (keyInsights (analyzePutCallSentiment 1 0 [ratio_row 1; ratio_row 2; ratio_row 3])).
Proof.
  split; [vm_compute; reflexivity|].
  vm_compute; intros [H|[H|[]]]; discriminate.
Qed.

Lemma c7_witness :
  In increasing_insight
    (keyInsights (analyzePutCallSentiment 1 0 [ratio_row 3; ratio_row 2; ratio_row 1])).
Proof.
  apply (proj2 (proj1 (c7_trend_insight 1 0 (ratio_row 3) (ratio_row 2) (ratio_row 1) []))).
  split; reflexivity.
Defined.

End BarchartFacts.

Module FundamentalsFacts.
Import Fundamentals.
Local Open Scope string_scope.

Lemma clamp100_range (x : Q) : (0 <= clamp100 x <= 100)%Q.
Proof.
  unfold clamp100.
  destruct (Q.max_spec 0 x) as [[H1 H2]|[H1 H2]];
  destruct (Q.min_spec 100 (Qmax 0 x)) as [[H3 H4]|[H3 H4]]; lra.
Qed.

Lemma Qmax_range (lo x hi : Q) : (lo <= hi)%Q -> (x <= hi)%Q -> (lo <= Qmax lo x <= hi)%Q.
Proof. intros; destruct (Q.max_spec lo x) as [[H1 H2]|[H1 H2]]; lra. Qed.

Lemma component_scores_eq (f : FundamentalMetrics) (w : Weights) :
  component_scores (calculateHealthScore f w) =
    mkScores (fst (profitability_score f)) (fst (liquidity_score f))
             (fst (leverage_score f)) (fst (efficiency_score f)) (fst (growth_score f)).
Proof.
  unfold calculateHealthScore.
  destruct (profitability_score f), (liquidity_score f), (leverage_score f),
           (efficiency_score f), (growth_score f); reflexivity.
Qed.

(** A metric string the code treats as missing: absent, empty, or not
    read by [parseFloat] (after the code's own [%] removal). *)
Definition absent_or_unparseable (parse : string -> option Q) (o : option string) : Prop :=
  o = None \/ o = Some EmptyString \/ exists s, o = Some s /\ parse s = None.

Lemma absent_no_value (parse : string -> option Q) (o : option string) :
  absent_or_unparseable parse o -> forall v, option_map parse (truthy o) <> Some (Some v).
Proof.
  intros [->|[->|(s & -> & Hs)]] v; cbn; try discriminate.
  destruct s; cbn; [discriminate|]; rewrite Hs; discriminate.
Qed.

Ltac no_value H :=
  match goal with
  | |- context [option_map ?p (truthy ?o)] =>
      let E := fresh "E" in
      destruct (option_map p (truthy o)) as [[v|]|] eqn:E;
      [exfalso; exact (absent_no_value _ _ H v E)| |]
  end.

Lemma profitability_range (f : FundamentalMetrics) : (0 <= fst (profitability_score f) <= 100)%Q.
Proof.
  unfold profitability_score.
  assert (Hs : (0 <= fst (match option_map parsePct (truthy (profitMargin f)) with
            | Some (Some margin) =>
                (clamp100 (50 + margin * 2)%Q, [("profit_margin", DStr (show margin ++ "%"))])
            | _ => (50%Q, [])
            end) <= 100)%Q).
  { destruct (option_map parsePct (truthy (profitMargin f))) as [[m|]|];
      cbn [fst]; [apply clamp100_range| lra | lra]. }
  destruct (match option_map parsePct (truthy (profitMargin f)) with
            | Some (Some margin) => _ | _ => _ end) as [s d]; cbn [fst] in Hs.
  destruct (option_map parsePct (truthy (returnOnEquity f))) as [[r|]|]; cbn [fst]; [|lra|lra].
  pose proof (clamp100_range (50 + r * 3)) as Hr.
  cbv zeta; set (x := clamp100 (50 + r * 3)) in *.
  setoid_replace ((s + x) / 2)%Q with ((s + x) * (1 # 2))%Q by (field; discriminate).
  lra.
Qed.

Lemma liquidity_range (f : FundamentalMetrics) : (0 <= fst (liquidity_score f) <= 100)%Q.
Proof.
  unfold liquidity_score.
  destruct (option_map parseFloat_s (truthy (currentRatio f))) as [[r|]|]; cbn [fst]; [|lra|lra].
  destruct (qle (15 # 10) r && qle r 3); [lra|].
  destruct (qle 1 r && qlt r (15 # 10)); [lra|].
  destruct (qlt 3 r); lra.
Qed.

Lemma leverage_range (f : FundamentalMetrics) : (0 <= fst (leverage_score f) <= 100)%Q.
Proof.
  unfold leverage_score.
  destruct (option_map parseFloat_s (truthy (debtToEquity f))) as [[de|]|]; cbn [fst]; [|lra|lra].
  destruct (qle de (3 # 10)); [lra|].
  destruct (qle de (6 # 10)); [lra|].
  destruct (qle de 1) eqn:E; [lra|].
  qbool. assert (H : (10 <= Qmax 10 (50 - (de - 1) * 20) <= 50)%Q)
    by (apply Qmax_range; lra). lra.
Qed.

Lemma efficiency_range (f : FundamentalMetrics) : (0 <= fst (efficiency_score f) <= 100)%Q.
Proof.
  unfold efficiency_score.
  destruct (option_map parseFloat_s (truthy (pe f))) as [[p|]|]; cbn [fst]; [|lra|lra].
  destruct (qlt 0 p); cbn [fst]; [|lra].
  destruct (qle 10 p && qle p 20); [lra|].
  destruct (qle 5 p && qlt p 10); [lra|].
  destruct (qlt 20 p && qle p 30); [lra|].
  destruct (qlt 30 p) eqn:E; [|lra].
  qbool. assert (H : (20 <= Qmax 20 (60 - (p - 30)) <= 60)%Q)
    by (apply Qmax_range; lra). lra.
Qed.

Lemma growth_range (f : FundamentalMetrics) : (0 <= fst (growth_score f) <= 100)%Q.
Proof.
  unfold growth_score.
  destruct (option_map parsePct (truthy (epsGrowth f))) as [[g|]|]; cbn [fst];
    [apply clamp100_range|lra|lra].
Qed.

(** The input of the worked example. *)
Definition c4_input : FundamentalMetrics :=
  mkFundamentals "XYZ" None None (Some "15") None None (Some "2") None None
    (Some "10%") None (Some "5%") None (Some "0.2") None (Some "20%").

(** C4. For profit margin 10%, ROE 20%, current ratio 2, debt/equity 0.2,
    P/E 15, EPS growth 5% and the default weights, the overall score is at
    least 70 (it is 82) and the rating is "Excellent", one of "Good" or
    "Excellent"; the rating bands are those of [rating_of]. *)
Theorem c4_health_example :
  let h := calculateHealthScore c4_input default_weights in
  (70 <= overall_score h)%Z /\ overall_score h = 82%Z /\
  (rating h = "Good" \/ rating h = "Excellent") /\
  (forall n : Z, rating_of n =
     if Z.leb 80 n then "Excellent" else if Z.leb 70 n then "Good"
     else if Z.leb 60 n then "Fair" else if Z.leb 40 n then "Below Average" else "Poor").
Proof.
  split; [vm_compute; discriminate|].
  split; [vm_compute; reflexivity|].
  split; [right; vm_compute; reflexivity|].
  intro n; reflexivity.
Qed.

(** C10. For any fundamentals and weights, the five component scores lie
    in [0, 100]; a component whose metrics are all absent, empty or not
    parseable is 50. *)
Theorem c10_component_scores (f : FundamentalMetrics) (w : Weights) :
  let sc := component_scores (calculateHealthScore f w) in
  (0 <= profitability sc <= 100 /\ 0 <= liquidity sc <= 100 /\
   0 <= leverage sc <= 100 /\ 0 <= efficiency sc <= 100 /\ 0 <= growth sc <= 100)%Q /\
  (absent_or_unparseable parsePct (profitMargin f) ->
   absent_or_unparseable parsePct (returnOnEquity f) -> profitability sc = 50%Q) /\
  (absent_or_unparseable parseFloat_s (currentRatio f) -> liquidity sc = 50%Q) /\
  (absent_or_unparseable parseFloat_s (debtToEquity f) -> leverage sc = 50%Q) /\
  (absent_or_unparseable parseFloat_s (pe f) -> efficiency sc = 50%Q) /\
  (absent_or_unparseable parsePct (epsGrowth f) -> growth sc = 50%Q).
Proof.
  cbv zeta; rewrite component_scores_eq; cbn [profitability liquidity leverage efficiency growth].
  split.
  { pose proof (profitability_range f); pose proof (liquidity_range f);
    pose proof (leverage_range f); pose proof (efficiency_range f);
    pose proof (growth_range f); tauto. }
  split; [|split; [|split; [|split]]].
  - intros H1 H2; unfold profitability_score.
    no_value H1; no_value H2; reflexivity.
  - intro H; unfold liquidity_score; no_value H; reflexivity.
  - intro H; unfold leverage_score; no_value H; reflexivity.
  - intro H; unfold efficiency_score; no_value H; reflexivity.
  - intro H; unfold growth_score; no_value H; reflexivity.
Qed.

Lemma c10_witness :
  profitability (component_scores (calculateHealthScore
    (mkFundamentals "XYZ" None None None None None None None None
       (Some "N/A") None None None None None None) default_weights)) = 50%Q.
Proof.
  apply (proj1 (proj2 (c10_component_scores
    (mkFundamentals "XYZ" None None None None None None None None
       (Some "N/A") None None None None None None) default_weights))).
  - right; right; exists "N/A"; split; [reflexivity|vm_compute; reflexivity].
  - left; reflexivity.
Defined.

End FundamentalsFacts.

Module InsiderFacts.
Import Insider.
Local Open Scope string_scope.

Lemma filter_all_false {A} (f : A -> bool) (l : list A) :
  (forall x, In x l -> f x = false) -> filter f l = [].
Proof.
  induction l as [|a t IH]; intro H; [reflexivity|].
  cbn; rewrite (H a (or_introl eq_refl)); apply IH; intros x Hx; apply H; right; exact Hx.
Qed.

(** The record returned on an empty filter. *)
Definition no_activity_result : InsiderSentiment :=
  mkInsiderSentiment Barchart.neutral low (mkSummary 0 0 0 0 0 None None)
    [no_activity_insight] [] None.

(** C5. When no transaction is both on or after the cutoff date and of
    absolute value at least [minValue], the result is the fixed record:
    neutral, low confidence, zero transactions, the single "no significant
    insider transactions" insight, no insider types and no list of
    significant transactions. *)
Theorem c5_no_relevant_transactions
    (parseTransactionDate : string -> Z) (cutoffDate : Z)
    (transactions : list InsiderTransaction) (minValue : Q) :
  (forall t, In t transactions ->
     ~ ((cutoffDate <= parseTransactionDate (date t))%Z /\
        (minValue <= Qabs (parseTransactionValue (value t)))%Q)) ->
  let r := calculateInsiderSentiment parseTransactionDate cutoffDate transactions minValue in
  r = no_activity_result /\
  overall_sentiment r = Barchart.neutral /\ confidence_level r = low /\
  total_transactions (transaction_summary r) = 0%nat /\
  key_insights r = ["No significant insider transactions found in the analysis period"].
Proof.
  intros H r.
  assert (E : r = no_activity_result).
  { unfold r, calculateInsiderSentiment.
    rewrite filter_all_false; [reflexivity|].
    intros t Ht; unfold is_relevant.
    destruct (cutoffDate <=? parseTransactionDate (date t))%Z eqn:E1; [|reflexivity].
    destruct (qle minValue (Qabs (parseTransactionValue (value t)))) eqn:E2; [|reflexivity].
    exfalso; apply (H t Ht); split; [apply Z.leb_le; exact E1|apply qle_true; exact E2]. }
  rewrite E; repeat split.
Qed.

Definition small_tx : InsiderTransaction :=
  mkTransaction "A" "Director" "Jan 02" "Buy" "1" "1" "$10" "1".

Lemma c5_witness :
  calculateInsiderSentiment (fun _ => 0%Z) 0%Z [small_tx] 100 = no_activity_result.
Proof.
  apply (c5_no_relevant_transactions (fun _ => 0%Z) 0%Z [small_tx] 100).
  intros t [<-|[]] [_ H]; revert H; vm_compute; intro H; apply H; reflexivity.
Defined.

Lemma filter_filter_and {A} (f g : A -> bool) (l : list A) :
  filter g (filter f l) = filter (fun x => f x && g x) l.
Proof.
  induction l as [|a t IH]; [reflexivity|]; cbn.
  destruct (f a); cbn; [destruct (g a); cbn|]; rewrite IH; reflexivity.
Qed.

Lemma existsb_filter_keep {A} (p q : A -> bool) (l : list A) :
  (forall x, p x = true -> q x = true) -> existsb p (filter q l) = existsb p l.
Proof.
  intro H; induction l as [|a t IH]; [reflexivity|]; cbn.
  destruct (q a) eqn:Eq; cbn; rewrite IH; [reflexivity|].
  destruct (p a) eqn:Ep; [rewrite (H a Ep) in Eq; discriminate|reflexivity].
Qed.

Lemma existsb_or {A} (p q : A -> bool) (l : list A) :
  existsb (fun x => p x || q x) l = existsb p l || existsb q l.
Proof.
  induction l as [|a t IH]; [reflexivity|]; cbn; rewrite IH.
  destruct (p a), (q a), (existsb p t), (existsb q t); reflexivity.
Qed.

(** The characters [parseTransactionValue] removes before [parseFloat]:
    [$], [,], white space, [-], [(] and [)]. *)
Definition dropped (c : ascii) : bool := is_strip c || is_sign c.

Definition negative_marker (c : ascii) : bool :=
  Ascii.eqb "-"%char c || Ascii.eqb "("%char c.

(** C9 (as amended).  Of the currency symbols only [$] is removed, with
    [,] and white space; a [-] or [(] anywhere in the input makes the
    result [-|v|], otherwise it is [|v|], where [v] is [parseFloat] of the
    input without [$ , - ( )] and white space; 0 when that parse fails.
    In particular "($1,234.50)" gives -1234.50 and "$500" gives 500. *)
Theorem c9_parseTransactionValue (s : string) :
  let l := list_ascii_of_string s in
  let numStr := filter (fun c => negb (dropped c)) l in
  let neg := existsb negative_marker l in
  (jsParseFloat numStr = None -> parseTransactionValue s = 0%Q) /\
  (forall v, jsParseFloat numStr = Some v ->
     parseTransactionValue s = if neg then Qopp (Qabs v) else Qabs v) /\
  (neg = true -> (parseTransactionValue s <= 0)%Q) /\
  (neg = false -> (0 <= parseTransactionValue s)%Q) /\
  (parseTransactionValue "($1,234.50)" == -(123450 # 100))%Q /\
  (parseTransactionValue "$500" == 500)%Q.
Proof.
  intros l numStr neg.
  set (cleaned := filter (fun c => negb (is_strip c)) l).
  assert (Hn : filter (fun c => negb (is_sign c)) cleaned = numStr).
  { unfold cleaned, numStr; rewrite filter_filter_and; apply filter_ext; intro c.
    unfold dropped; destruct (is_strip c), (is_sign c); reflexivity. }
  assert (Hk : forall d c, Ascii.eqb d c = true -> is_strip d = false ->
                 negb (is_strip c) = true).
  { intros d c Hdc Hd; apply Ascii.eqb_eq in Hdc; subst c; rewrite Hd; reflexivity. }
  assert (Hneg : existsb (Ascii.eqb "-"%char) cleaned
                 || existsb (Ascii.eqb "("%char) cleaned = neg).
  { unfold cleaned, neg, negative_marker; rewrite existsb_or.
    rewrite !existsb_filter_keep; [reflexivity| |];
      intros c Hc; apply (Hk _ c Hc); reflexivity. }
  assert (Hp : parseTransactionValue s =
               match jsParseFloat numStr with
               | None => 0%Q
               | Some v => if neg then Qopp (Qabs v) else Qabs v
               end).
  { unfold parseTransactionValue; fold l; fold cleaned; rewrite Hn, Hneg; reflexivity. }
  split; [intro H; rewrite Hp, H; reflexivity|].
  split; [intros v H; rewrite Hp, H; reflexivity|].
  split; [intro H; rewrite Hp, H; destruct (jsParseFloat numStr) as [v|];
          [pose proof (Qabs_nonneg v); lra|lra]|].
  split; [intro H; rewrite Hp, H; destruct (jsParseFloat numStr) as [v|];
          [apply Qabs_nonneg|lra]|].
  split; vm_compute; reflexivity.
Qed.

(** C9 as stated fails: a currency symbol other than [$] is not removed,
    so the pound sign (code unit 163) followed by "500" is not read and gives 0, while
    "$500" gives 500. *)
Lemma c9_pound_sign_not_stripped :
  parseTransactionValue (String (ascii_of_nat 163) "500") = 0%Q /\
  (parseTransactionValue "$500" == 500)%Q.
Proof. split; vm_compute; reflexivity. Qed.

Lemma c9_witness :
  parseTransactionValue "-$2" = Qopp (Qabs (2 # 1)).
Proof.
  apply (proj1 (proj2 (c9_parseTransactionValue "-$2")) (2 # 1)).
  vm_compute; reflexivity.
Defined.

End InsiderFacts.

Module NumberFacts.

Definition all_digits (l : list ascii) : Prop := Forall (fun c => is_digit c = true) l.

Lemma digits_value_app (acc : Z) (A B : list ascii) :
  digits_value acc (A ++ B) = digits_value (digits_value acc A) B.
Proof. revert acc; induction A as [|c t IH]; intro acc; [reflexivity|]; apply IH. Qed.

Lemma digits_value_acc (L : list ascii) : forall acc : Z,
  digits_value acc L = acc * 10 ^ Z.of_nat (List.length L) + digits_value 0 L.
Proof.
  induction L as [|c t IH]; intro acc; cbn [digits_value List.length].
  - cbn; lia.
  - rewrite (IH (acc * 10 + digit_val c)), (IH (0 * 10 + digit_val c)).
    rewrite Nat2Z.inj_succ, Z.pow_succ_r by lia; ring.
Qed.

Lemma ascii_of_digit_spec (d : Z) :
  0 <= d < 10 -> is_digit (ascii_of_digit d) = true /\ digit_val (ascii_of_digit d) = d.
Proof.
  intro Hd; unfold is_digit, digit_val, ascii_of_digit, code.
  rewrite nat_ascii_embedding by lia.
  split; [apply andb_true_intro; split; apply Nat.leb_le; lia | lia].
Qed.

Lemma z_digits_aux_spec (f : nat) : forall (n : Z) (acc : list ascii),
  0 <= n < 10 ^ Z.of_nat (S f) ->
  exists D, z_digits_aux (S f) n acc = D ++ acc /\ D <> [] /\ all_digits D /\
            digits_value 0 D = n.
Proof.
  induction f as [|f IH]; intros n acc Hn; cbn [z_digits_aux].
  - replace (n <? 10) with true by (symmetry; apply Z.ltb_lt; cbn in Hn; lia).
    destruct (ascii_of_digit_spec (n mod 10)) as [H1 H2]; [apply Z.mod_pos_bound; lia|].
    exists [ascii_of_digit (n mod 10)]; split; [reflexivity|].
    split; [discriminate|]; split; [constructor; [exact H1|constructor]|].
    cbn; rewrite H2; rewrite Z.mod_small; lia.
  - destruct (ascii_of_digit_spec (n mod 10)) as [H1 H2]; [apply Z.mod_pos_bound; lia|].
    destruct (n <? 10) eqn:E.
    + apply Z.ltb_lt in E.
      exists [ascii_of_digit (n mod 10)]; split; [reflexivity|].
      split; [discriminate|]; split; [constructor; [exact H1|constructor]|].
      cbn; rewrite H2; rewrite Z.mod_small; lia.
    + apply Z.ltb_ge in E.
      destruct (IH (n / 10) (ascii_of_digit (n mod 10) :: acc)) as (D & HD & Hne & Hdig & Hval).
      { split; [apply Z.div_pos; lia|].
        apply Z.div_lt_upper_bound; [lia|].
        rewrite <- Z.pow_succ_r by lia; rewrite <- Nat2Z.inj_succ; lia. }
      cbn [z_digits_aux] in HD; rewrite HD.
      exists (D ++ [ascii_of_digit (n mod 10)]); split; [rewrite <- app_assoc; reflexivity|].
      split; [destruct D; [contradiction|discriminate]|].
      split; [apply Forall_app; split; [exact Hdig|constructor; [exact H1|constructor]]|].
      rewrite digits_value_app, Hval; cbn; rewrite H2.
      pose proof (Z.div_mod n 10); lia.
Qed.

Lemma z_digits_spec (m : Z) :
  0 < m -> z_digits m <> [] /\ all_digits (z_digits m) /\ digits_value 0 (z_digits m) = m.
Proof.
  intro Hm; unfold z_digits.
  pose proof (Z.log2_nonneg m).
  replace (Z.to_nat (Z.log2 m + 1)) with (S (Z.to_nat (Z.log2 m))) by lia.
  destruct (z_digits_aux_spec (Z.to_nat (Z.log2 m)) m []) as (D & HD & Hne & Hdig & Hval).
  - split; [lia|].
    destruct (Z.log2_spec m Hm) as [_ H2].
    eapply Z.lt_le_trans; [exact H2|].
    replace (Z.of_nat (S (Z.to_nat (Z.log2 m)))) with (Z.succ (Z.log2 m)) by lia.
    apply Z.pow_le_mono_l; lia.
  - rewrite HD, app_nil_r; auto.
Qed.

Lemma take_digits_app (A B : list ascii) :
  all_digits A ->
  (match B with [] => True | c :: _ => is_digit c = false end) ->
  take_digits (A ++ B) = (A, B).
Proof.
  intros HA HB; induction HA as [|c t Hc Ht IH]; cbn.
  - destruct B as [|c t]; [reflexivity|]; cbn; rewrite HB; reflexivity.
  - rewrite Hc, IH; reflexivity.
Qed.

Lemma read_unsigned_int (A : list ascii) :
  all_digits A -> A <> [] -> read_unsigned A = Some (dec_val (digits_value 0 A) 0).
Proof.
  intros HA Hne; unfold read_unsigned.
  rewrite <- (app_nil_r A) at 1; rewrite take_digits_app by (exact HA || exact I).
  destruct A; [contradiction|]; cbn [List.length]; rewrite app_nil_r; reflexivity.
Qed.

Lemma read_unsigned_frac (A B : list ascii) :
  all_digits A -> all_digits B -> A <> [] ->
  read_unsigned (A ++ "."%char :: B) =
    Some (dec_val (digits_value 0 (A ++ B)) (- Z.of_nat (List.length B))).
Proof.
  intros HA HB Hne; unfold read_unsigned.
  rewrite take_digits_app by (exact HA || reflexivity).
  cbn [Ascii.eqb Bool.eqb].
  rewrite <- (app_nil_r B) at 1; rewrite take_digits_app by (exact HB || exact I).
  destruct A; [contradiction|]; reflexivity.
Qed.

Lemma zeros_digits (j : nat) : all_digits (repeat_char "0"%char j).
Proof. induction j; constructor; [reflexivity|assumption]. Qed.

Lemma zeros_value (j : nat) : forall acc,
  digits_value acc (repeat_char "0"%char j) = acc * 10 ^ Z.of_nat j.
Proof.
  induction j as [|j IH]; intro acc; cbn [repeat_char digits_value].
  - cbn; lia.
  - rewrite IH; replace (digit_val "0"%char) with 0 by reflexivity.
    rewrite Nat2Z.inj_succ, Z.pow_succ_r by lia; ring.
Qed.

Lemma zeros_length (j : nat) : List.length (repeat_char "0"%char j) = j.
Proof. induction j; cbn; [reflexivity|]; f_equal; assumption. Qed.

Lemma ten_nonzero : ~ (inject_Z 10 == 0)%Q.
Proof. intro H; apply inject_Z_injective in H; discriminate. Qed.

Lemma dec_val_shift (m e j : Z) :
  0 <= j -> (dec_val (m * 10 ^ j) e == dec_val m (e + j))%Q.
Proof.
  intro Hj; unfold dec_val.
  rewrite inject_Z_mult, Zpower_Qpower by exact Hj.
  rewrite (Qpower_plus _ _ _ ten_nonzero); ring.
Qed.

Lemma read_sign_digit (c : ascii) (t : list ascii) :
  is_digit c = true -> read_sign (c :: t) = (1, c :: t).
Proof.
  intro H; unfold read_sign.
  destruct (Ascii.eqb c "-"%char) eqn:E1;
    [apply Ascii.eqb_eq in E1; subst; discriminate|].
  destruct (Ascii.eqb c "+"%char) eqn:E2;
    [apply Ascii.eqb_eq in E2; subst; discriminate|reflexivity].
Qed.

Lemma is_space_digit (c : ascii) : is_digit c = true -> is_space c = false.
Proof.
  unfold is_digit, is_space, code; intro H.
  apply andb_prop in H as [H1 H2]; apply Nat.leb_le in H1, H2.
  assert (Hc : (nat_of_ascii c = 48 \/ nat_of_ascii c = 49 \/ nat_of_ascii c = 50 \/
                nat_of_ascii c = 51 \/ nat_of_ascii c = 52 \/ nat_of_ascii c = 53 \/
                nat_of_ascii c = 54 \/ nat_of_ascii c = 55 \/ nat_of_ascii c = 56 \/
                nat_of_ascii c = 57)%nat) by lia.
  repeat destruct Hc as [-> | Hc]; [reflexivity ..|]; rewrite Hc; reflexivity.
Qed.

Definition keeps (l : list ascii) : Prop := forallb Barchart.keep_numeric l = true.

Lemma digits_keep (l : list ascii) : all_digits l -> keeps l.
Proof.
  unfold keeps; induction 1; [reflexivity|]; cbn.
  unfold Barchart.keep_numeric; rewrite H; exact IHForall.
Qed.

Lemma keeps_app (A B : list ascii) : keeps A -> keeps B -> keeps (A ++ B).
Proof. unfold keeps; rewrite forallb_app; intros -> ->; reflexivity. Qed.

(** The plain notations of [render_pos] read back to their value. *)
Lemma render_pos_plain (m e : Z) :
  0 < m -> plain_pos m e = true ->
  exists c rest, render_pos m e = c :: rest /\ is_digit c = true /\
    keeps (c :: rest) /\ (exists v, read_unsigned (c :: rest) = Some v /\ v == dec_val m e)%Q.
Proof.
  intros Hm Hp.
  destruct (z_digits_spec m Hm) as (Hne & Hdig & Hval).
  unfold plain_pos in Hp; unfold render_pos.
  set (D := z_digits m) in *.
  set (k := Z.of_nat (List.length D)) in *.
  apply andb_prop in Hp as [Hp1 Hp2]; apply Z.ltb_lt in Hp1; apply Z.leb_le in Hp2.
  assert (Hk : 1 <= k) by (destruct D; [contradiction|]; unfold k; cbn [List.length]; lia).
  destruct ((k <=? k + e) && (k + e <=? 21)) eqn:C1.
  - apply andb_prop in C1 as [C1 _]; apply Z.leb_le in C1.
    destruct D as [|c rest] eqn:ED; [contradiction|].
    exists c, (rest ++ repeat_char "0"%char (Z.to_nat (k + e - k))).
    pose proof (Forall_inv Hdig) as Hc.
    split; [reflexivity|]; split; [exact Hc|].
    assert (Hall : all_digits ((c :: rest) ++ repeat_char "0"%char (Z.to_nat (k + e - k))))
      by (apply Forall_app; split; [exact Hdig|apply zeros_digits]).
    split; [exact (digits_keep _ Hall)|].
    eexists; split; [exact (read_unsigned_int _ Hall ltac:(discriminate))|].
    rewrite digits_value_app, zeros_value, Hval, Z2Nat.id by lia.
    rewrite dec_val_shift by lia.
    replace (0 + (k + e - k)) with e by lia; reflexivity.
  - destruct ((0 <? k + e) && (k + e <=? 21)) eqn:C2.
    + apply andb_prop in C2 as [C2 _]; apply Z.ltb_lt in C2.
      assert (Hlt : k + e < k) by (apply andb_false_iff in C1 as [C1|C1];
                                   apply Z.leb_gt in C1; lia).
      pose proof Hdig as Hfs.
      rewrite <- (firstn_skipn (Z.to_nat (k + e)) D) in Hfs.
      apply Forall_app in Hfs as [Hfd Hsd].
      destruct (firstn (Z.to_nat (k + e)) D) as [|c rest] eqn:EF.
      * exfalso; assert (L : List.length (firstn (Z.to_nat (k + e)) D) = Z.to_nat (k + e))
          by (rewrite length_firstn; unfold k in *; lia).
        rewrite EF in L; cbn in L; lia.
      * exists c, (rest ++ "."%char :: skipn (Z.to_nat (k + e)) D).
        pose proof (Forall_inv Hfd) as Hc.
        split; [reflexivity|]; split; [exact Hc|].
        split.
        { change (keeps ((c :: rest) ++ "."%char :: skipn (Z.to_nat (k + e)) D)).
          apply keeps_app; [exact (digits_keep _ Hfd)|].
          unfold keeps; cbn [forallb]; rewrite (digits_keep _ Hsd); reflexivity. }
        eexists; split.
        { change (c :: rest ++ "."%char :: skipn (Z.to_nat (k + e)) D)
            with ((c :: rest) ++ "."%char :: skipn (Z.to_nat (k + e)) D).
          exact (read_unsigned_frac _ _ Hfd Hsd ltac:(discriminate)). }
        rewrite <- EF, firstn_skipn, Hval, length_skipn.
        unfold dec_val; apply Qmult_comp; [reflexivity|].
        replace (- Z.of_nat (List.length D - Z.to_nat (k + e))) with e
          by (unfold k in *; lia). reflexivity.
    + assert (Hn : k + e <= 0) by
        (apply andb_false_iff in C2 as [C2|C2]; [apply Z.ltb_ge in C2|apply Z.leb_gt in C2]; lia).
      replace ((-6 <? k + e) && (k + e <=? 0)) with true
        by (symmetry; apply andb_true_intro; split; [apply Z.ltb_lt|apply Z.leb_le]; lia).
      exists "0"%char, ("."%char :: repeat_char "0"%char (Z.to_nat (- (k + e))) ++ D).
      assert (Hz : all_digits (repeat_char "0"%char (Z.to_nat (- (k + e))) ++ D))
        by (apply Forall_app; split; [apply zeros_digits|exact Hdig]).
      split; [reflexivity|]; split; [reflexivity|].
      split.
      { unfold keeps; cbn [forallb]; rewrite (digits_keep _ Hz); reflexivity. }
      eexists; split.
      { change ("0"%char :: "."%char :: repeat_char "0"%char (Z.to_nat (- (k + e))) ++ D)
          with (["0"%char] ++ "."%char :: (repeat_char "0"%char (Z.to_nat (- (k + e))) ++ D)).
        exact (read_unsigned_frac _ _ (Forall_cons "0"%char (eq_refl : is_digit "0"%char = true) (Forall_nil _)) Hz ltac:(discriminate)). }
      rewrite app_assoc.
      change (["0"%char] ++ repeat_char "0"%char (Z.to_nat (- (k + e))))
        with (repeat_char "0"%char (S (Z.to_nat (- (k + e))))).
      rewrite digits_value_app, zeros_value, Z.mul_0_l, Hval, length_app, zeros_length.
      unfold dec_val; apply Qmult_comp; [reflexivity|].
      replace (- Z.of_nat (Z.to_nat (- (k + e)) + List.length D)) with e
        by (unfold k in *; lia). reflexivity.
Qed.

Lemma find_scale_spec (fuel : nat) : forall p d k0 k,
  find_scale fuel p d k0 = Some k -> (p * 10 ^ Z.of_nat k) mod d = 0.
Proof.
  induction fuel as [|f IH]; intros p d k0 k H; cbn in H; [discriminate|].
  destruct ((p * 10 ^ Z.of_nat k0) mod d =? 0) eqn:E.
  - injection H as <-; apply Z.eqb_eq; exact E.
  - exact (IH _ _ _ _ H).
Qed.

Lemma strip_zeros_spec (fuel : nat) : forall m e,
  0 < m -> 0 < fst (strip_zeros fuel m e) /\
           (dec_val m e == dec_val (fst (strip_zeros fuel m e)) (snd (strip_zeros fuel m e)))%Q.
Proof.
  induction fuel as [|f IH]; intros m e Hm; cbn [strip_zeros]; [split; [exact Hm|reflexivity]|].
  destruct ((m mod 10 =? 0) && (0 <? m)) eqn:E; [|split; [exact Hm|reflexivity]].
  apply andb_prop in E as [E _]; apply Z.eqb_eq in E.
  assert (Hm' : m = m / 10 * 10 ^ 1) by (pose proof (Z.div_mod m 10); cbn; lia).
  assert (Hpos : 0 < m / 10) by lia.
  destruct (IH (m / 10) (e + 1) Hpos) as [H1 H2].
  split; [exact H1|].
  rewrite <- H2, Hm' at 1; apply dec_val_shift; lia.
Qed.

Lemma inject_Z_nonzero (z : Z) : z <> 0 -> ~ (inject_Z z == 0)%Q.
Proof.
  intros Hz H; apply Hz, inject_Z_injective; exact H.
Qed.

(** [to_decimal] is exact on positive numbers. *)
Lemma to_decimal_spec (x : Q) (m e : Z) :
  (0 < x)%Q -> to_decimal x = Some (m, e) -> 0 < m /\ (x == dec_val m e)%Q.
Proof.
  intros Hx Ht; unfold to_decimal in Ht.
  destruct (find_scale _ _ _ _) as [k|] eqn:F; [|discriminate].
  injection Ht as Ht.
  apply find_scale_spec in F.
  destruct x as [p d]; cbn [Qnum Qden] in *.
  assert (Hp : 0 < p) by (unfold Qlt in Hx; cbn in Hx; lia).
  set (T := 10 ^ Z.of_nat k) in *.
  assert (HT : 0 < T) by (apply Z.pow_pos_nonneg; lia).
  set (m0 := p * T / Z.pos d) in *.
  assert (Hex : p * T = Z.pos d * m0) by (apply Z.div_exact; lia || exact F).
  assert (Hm0 : 0 < m0) by nia.
  destruct (strip_zeros_spec (Z.to_nat (Z.log2 m0 + 1)) m0 (- Z.of_nat k) Hm0) as [H1 H2].
  rewrite Ht in H1, H2; cbn [fst snd] in H1, H2.
  split; [exact H1|]; rewrite <- H2.
  rewrite Qmake_Qdiv; unfold dec_val.
  rewrite Qpower_opp, <- Zpower_Qpower by lia; fold T.
  assert (HdT : ~ (inject_Z T == 0)%Q) by (apply inject_Z_nonzero; lia).
  assert (Hd : ~ (inject_Z (Z.pos d) == 0)%Q) by (apply inject_Z_nonzero; lia).
  field_simplify_eq; [|split; [exact HdT|exact Hd]].
  rewrite <- !inject_Z_mult; apply inject_Z_injective; lia.
Qed.

Lemma filter_keeps (l : list ascii) : keeps l -> filter Barchart.keep_numeric l = l.
Proof.
  unfold keeps; induction l as [|c t IH]; [reflexivity|]; cbn.
  intro H; apply andb_prop in H as [H1 H2]; rewrite H1, IH by exact H2; reflexivity.
Qed.

(** [parseNumber] of a rendering that starts with a kept character reads
    the rendering with [parseFloat]. *)
Lemma parseNumber_render (c : ascii) (rest : list ascii) :
  keeps (c :: rest) ->
  Barchart.parseNumber (string_of_list_ascii (c :: rest)) =
    match jsParseFloat (c :: rest) with Some q => q | None => 0%Q end.
Proof.
  intro H; unfold Barchart.parseNumber; cbn [string_of_list_ascii].
  change (String c (string_of_list_ascii rest)) with (string_of_list_ascii (c :: rest)).
  rewrite list_ascii_of_string_of_list_ascii, filter_keeps by exact H; reflexivity.
Qed.

End NumberFacts.

Module ParseNumberFacts.
Import Barchart NumberFacts.
Local Open Scope string_scope.

(** [String(x)] of a number in plain decimal notation reads back to [x]. *)
Lemma parseNumber_toString (x : Q) :
  plain_notation x = true -> (parseNumber (string_of_list_ascii (Number_toString x)) == x)%Q.
Proof.
  intro Hp; unfold Number_toString; unfold plain_notation in Hp.
  destruct (qeq x 0) eqn:E0.
  { qbool; rewrite E0; reflexivity. }
  destruct (qlt x 0) eqn:En; cbv beta iota zeta in *.
  - destruct (to_decimal (- x)) as [[m e]|] eqn:Ed; [|discriminate].
    qbool.
    destruct (to_decimal_spec (- x) m e ltac:(lra) Ed) as [Hm Hx].
    destruct (render_pos_plain m e Hm Hp) as (c & rest & Hr & Hc & Hk & v & Hv & Hve).
    rewrite Hr, parseNumber_render.
    2: { unfold keeps in *.
         change (forallb keep_numeric ("-"%char :: c :: rest))
           with (keep_numeric "-"%char && forallb keep_numeric (c :: rest)).
         rewrite Hk; reflexivity. }
    unfold jsParseFloat.
    replace (js_trim ("-"%char :: c :: rest)) with ("-"%char :: c :: rest) by reflexivity.
    replace (read_sign ("-"%char :: c :: rest)) with (-1, c :: rest) by reflexivity.
    rewrite Hv; cbn [option_map].
    rewrite Hve, <- Hx; change (inject_Z (-1)) with (-1 # 1)%Q; ring.
  - destruct (to_decimal x) as [[m e]|] eqn:Ed; [|discriminate].
    qbool.
    assert (Hpos : (0 < x)%Q) by (apply Qle_lt_or_eq in En as [H|H]; [exact H|];
                                  exfalso; apply E0; symmetry; exact H).
    destruct (to_decimal_spec x m e Hpos Ed) as [Hm Hx].
    destruct (render_pos_plain m e Hm Hp) as (c & rest & Hr & Hc & Hk & v & Hv & Hve).
    rewrite Hr, parseNumber_render by exact Hk.
    unfold jsParseFloat; cbn [js_trim]; rewrite (is_space_digit c Hc), read_sign_digit by exact Hc.
    rewrite Hv; cbn [option_map].
    rewrite Hve, <- Hx; change (inject_Z 1) with 1%Q; ring.
Qed.

(** C8 (as amended).  [parseNumber] is total; it gives 0 on the empty
    string, on "-", on "N/A", and whenever [parseFloat] reads no number in
    the input restricted to digits, [.] and [-]; and
    [parseNumber(String(parseNumber(s)))] equals [parseNumber(s)] whenever
    [String(parseNumber(s))] is in plain decimal notation (no exponent),
    that is for magnitudes from 1e-6 up to below 1e21. *)
Theorem c8_parseNumber :
  (parseNumber "" = 0%Q /\ parseNumber "-" = 0%Q /\ parseNumber "N/A" = 0%Q) /\
  (forall s, jsParseFloat (filter keep_numeric (list_ascii_of_string s)) = None ->
             parseNumber s = 0%Q) /\
  (forall s, plain_notation (parseNumber s) = true ->
             (parseNumber (string_of_list_ascii (Number_toString (parseNumber s)))
                == parseNumber s)%Q).
Proof.
  split; [repeat split; vm_compute; reflexivity|].
  split.
  - intros s H; unfold parseNumber; destruct s; [reflexivity|].
    rewrite H; reflexivity.
  - intros s H; apply parseNumber_toString; exact H.
Qed.

Lemma c8_witness :
  (parseNumber (string_of_list_ascii (Number_toString (parseNumber "1,234.5")))
     == parseNumber "1,234.5")%Q /\
  parseNumber "abc" = 0%Q.
Proof.
  split.
  - apply (proj2 (proj2 c8_parseNumber) "1,234.5"); vm_compute; reflexivity.
  - apply (proj1 (proj2 c8_parseNumber) "abc"); vm_compute; reflexivity.
Defined.

(** C8 as stated fails: the clean integer string of twenty-two digits
    "1000000000000000000000" parses to 1e21, whose [String] is "1e+21",
    and [parseNumber] of that keeps "121". *)
Lemma c8_exponent_roundtrip_fails :
  parseNumber "1000000000000000000000" = inject_Z (10 ^ 21) /\
  Number_toString (parseNumber "1000000000000000000000") = list_ascii_of_string "1e+21" /\
  parseNumber (string_of_list_ascii (Number_toString (parseNumber "1000000000000000000000")))
    = 121%Q.
Proof. repeat split; vm_compute; reflexivity. Qed.

End ParseNumberFacts.

(* ------------------------------------------------------------------ *)
(** ** Further properties of the code *)

Module RoundFacts.

(** [Math.round] keeps a value of [0 .. 100] in [0 .. 100]. *)
Lemma math_round_range (x : Q) : (0 <= x <= 100)%Q -> (0 <= math_round x <= 100)%Z.
Proof.
  intros [H0 H1]. unfold math_round. split.
  - change 0%Z with (Qfloor 0). apply Qfloor_resp_le. lra.
  - pose proof (Qfloor_le (x + (1 # 2))) as H.
    destruct (Z_lt_le_dec 100 (Qfloor (x + (1 # 2)))) as [Hlt|Hle]; [|exact Hle].
    exfalso. assert (H2 : (inject_Z 101 <= inject_Z (Qfloor (x + (1 # 2))))%Q)
      by (rewrite <- Zle_Qle; lia).
    change (inject_Z 101) with 101%Q in H2. lra.
Qed.

End RoundFacts.

(* ------------------------------------------------------------------ *)
(** ** [parsePutCallRatioData] and its helpers *)

Module BarchartExtraFacts.
Import Barchart.
Local Open Scope string_scope.

(** X1. The private [parseFloat] helper of the adapter and [parseNumber] give
    the same number on every input (the empty string, a NaN and a parsed
    0 all give 0 in both). *)
Theorem parseFloat_parseNumber (text : string) :
  (parseFloat text == parseNumber text)%Q.
Proof.
  unfold parseFloat, parseNumber. destruct text as [|c rest].
  - vm_compute. reflexivity.
  - destruct (jsParseFloat _) as [q|]; [|reflexivity].
    unfold num_or. destruct (qeq q 0) eqn:E; qbool; lra.
Qed.

Lemma parse_row_some (row : list string) (d : PutCallRatioData) :
  parse_row row = Some d ->
  totalVolume d = (putVolume d + callVolume d)%Q /\
  totalOpenInterest d = (putOpenInterest d + callOpenInterest d)%Q /\
  expirationDate d <> "" /\
  test date_re (list_ascii_of_string (expirationDate d)) = true /\
  (0 < putVolume d \/ 0 < callVolume d)%Q.
Proof.
  unfold parse_row. cbv zeta.
  destruct (3 <=? List.length (map trim row))%nat; [|discriminate].
  destruct (test date_re (list_ascii_of_string (nth 0 (map trim row) ""))
            && (6 <=? List.length (map trim row))%nat) eqn:Ed; [|discriminate].
  destruct (negb (String.eqb (nth 0 (map trim row) "") "")
            && (qlt 0 (parseNumber (nth 1 (map trim row) ""))
                || qlt 0 (parseNumber (nth 2 (map trim row) "")))) eqn:Ec; [|discriminate].
  intros H. injection H as <-. cbn.
  apply andb_true_iff in Ed as [Ed _].
  apply andb_true_iff in Ec as [Ec1 Ec2]. apply negb_true_iff, String.eqb_neq in Ec1.
  apply orb_true_iff in Ec2.
  split; [reflexivity|]. split; [reflexivity|]. split; [exact Ec1|]. split; [exact Ed|].
  destruct Ec2 as [E|E]; qbool; tauto.
Qed.

(** X2. Every row of [ratiosByDate] has total volume = put + call volume and
    total open interest = put + call open interest, and a non-empty date:
    it is either the synthetic [Overall] row or a table row whose first
    cell matches the date pattern and whose put or call volume is
    positive. *)
Theorem parsePutCallRatioData_rows (page : Page) (tick : string) (d : PutCallRatioData) :
  In d (ratiosByDate (parsePutCallRatioData page tick)) ->
  totalVolume d = (putVolume d + callVolume d)%Q /\
  totalOpenInterest d = (putOpenInterest d + callOpenInterest d)%Q /\
  expirationDate d <> "" /\
  (expirationDate d = "Overall" \/
   (test date_re (list_ascii_of_string (expirationDate d)) = true /\
    (0 < putVolume d \/ 0 < callVolume d)%Q)).
Proof.
  unfold parsePutCallRatioData. cbv zeta. cbn [ratiosByDate]. unfold add_overall.
  destruct (extract_rows page) as [|r rs] eqn:Er.
  - set (t := extract_totals page).
    destruct (qlt 0 (t_putVolume t) || qlt 0 (t_callVolume t) || qlt 0 (t_volumeRatio t));
      [|intros []].
    intros [<-|[]]. cbn. split; [reflexivity|]. split; [reflexivity|].
    split; [discriminate|]. left; reflexivity.
  - rewrite <- Er. intros Hin. unfold extract_rows in Hin.
    apply in_flat_map in Hin as [row [_ Hd]].
    destruct (parse_row row) as [d'|] eqn:Ep; [|destruct Hd].
    destruct Hd as [<-|[]]. apply parse_row_some in Ep. tauto.
Qed.

(** X3. Once the summary section gives a non-zero put or call volume total,
    the page's free text (read by the regex fallback) has no effect on
    the result. *)
Theorem parsePutCallRatioData_ignores_page_text (page : Page) (tick text : string) :
  (~ (t_putVolume (fold_left summary_step (summary_rows page) totals0) == 0) \/
   ~ (t_callVolume (fold_left summary_step (summary_rows page) totals0) == 0))%Q ->
  parsePutCallRatioData (mkPage (price_text page) (summary_rows page) text (tables page)) tick
  = parsePutCallRatioData page tick.
Proof.
  intros H.
  set (s := fold_left summary_step (summary_rows page) totals0) in H.
  assert (Hc : qeq (t_putVolume s) 0 && qeq (t_callVolume s) 0 = false).
  { destruct H as [H|H]; apply qeq_false in H; rewrite H; [reflexivity|apply andb_false_r]. }
  assert (Ht : extract_totals (mkPage (price_text page) (summary_rows page) text (tables page))
               = extract_totals page).
  { unfold extract_totals. cbv zeta. cbn [summary_rows page_text]. fold s. rewrite Hc.
    reflexivity. }
  unfold parsePutCallRatioData. rewrite Ht. reflexivity.
Qed.

(** X4. [analyzePutCallSentiment] gives one to three insights: the volume
    ratio one, then at most one on open interest and at most one on the
    trend. *)
Theorem analyzePutCallSentiment_insight_count (volumeRatio oiRatio : Q)
    (rows : list PutCallRatioData) :
  (1 <= List.length (keyInsights (analyzePutCallSentiment volumeRatio oiRatio rows)) <= 3)%nat.
Proof.
  unfold analyzePutCallSentiment.
  assert (Hv : exists s i x, volume_branch volumeRatio = (s, i, [x])).
  { unfold volume_branch.
    destruct (qlt (12 # 10) volumeRatio); [eexists _, _, _; reflexivity|].
    destruct (qlt volumeRatio (8 # 10)); eexists _, _, _; reflexivity. }
  assert (Ho : (List.length (oi_branch oiRatio) <= 1)%nat).
  { unfold oi_branch.
    repeat match goal with |- context [if ?c then _ else _] => destruct c end; simpl; lia. }
  assert (Htr : (List.length (trend_branch rows) <= 1)%nat).
  { unfold trend_branch. destruct rows as [|d0 [|d1 [|d2 rest]]]; simpl; try lia.
    repeat match goal with |- context [if ?c then _ else _] => destruct c end; simpl; lia. }
  destruct Hv as (s & i & x & ->). cbn [keyInsights]. simpl. rewrite length_app. lia.
Qed.

(** Witnesses. *)

Definition rows_page : Page :=
  mkPage None [] ""
    [mkTable "Put/Call Ratio" [["01/17/2025"; "1,200"; "800"; "1.50"; "5,000"; "4,000"]] []].

Definition blank_row : PutCallRatioData := mkRow "" 0 0 0 0 0 0 0 0.

Lemma parsePutCallRatioData_rows_witness :
  let d := hd blank_row (ratiosByDate (parsePutCallRatioData rows_page "XYZ")) in
  In d (ratiosByDate (parsePutCallRatioData rows_page "XYZ")) /\
  totalVolume d = (putVolume d + callVolume d)%Q /\
  totalOpenInterest d = (putOpenInterest d + callOpenInterest d)%Q /\
  expirationDate d <> "" /\
  (expirationDate d = "Overall" \/
   (test date_re (list_ascii_of_string (expirationDate d)) = true /\
    (0 < putVolume d \/ 0 < callVolume d)%Q)).
Proof.
  assert (H : In (hd blank_row (ratiosByDate (parsePutCallRatioData rows_page "XYZ")))
                 (ratiosByDate (parsePutCallRatioData rows_page "XYZ")))
    by (vm_compute; left; reflexivity).
  split; [exact H|]. exact (parsePutCallRatioData_rows _ _ _ H).
Defined.

Definition summary_page : Page :=
  mkPage None [("Put Volume Total", "1,000"); ("Call Volume Total", "500")]
    "Put Volume Total: 7" [].

Lemma parsePutCallRatioData_ignores_page_text_witness :
  (~ (t_putVolume (fold_left summary_step (summary_rows summary_page) totals0) == 0))%Q /\
  parsePutCallRatioData (mkPage (price_text summary_page) (summary_rows summary_page)
                                "Call Volume Total: 9" (tables summary_page)) "XYZ"
  = parsePutCallRatioData summary_page "XYZ".
Proof.
  assert (H : (~ (t_putVolume (fold_left summary_step (summary_rows summary_page) totals0) == 0))%Q)
    by (intro H; vm_compute in H; discriminate H).
  split; [exact H|]. apply parsePutCallRatioData_ignores_page_text. left; exact H.
Defined.

End BarchartExtraFacts.

(* ------------------------------------------------------------------ *)
(** ** [calculateHealthScore]: the overall score and the monotone scores *)

Module FundamentalsExtraFacts.
Import Fundamentals FundamentalsFacts RoundFacts.
Local Open Scope string_scope.

Lemma overall_score_eq (f : FundamentalMetrics) (w : Weights) :
  overall_score (calculateHealthScore f w) =
    math_round (fst (profitability_score f) * w_profitability w
                + fst (liquidity_score f) * w_liquidity w
                + fst (leverage_score f) * w_leverage w
                + fst (efficiency_score f) * w_efficiency w
                + fst (growth_score f) * w_growth w)%Q.
Proof.
  unfold calculateHealthScore.
  destruct (profitability_score f), (liquidity_score f), (leverage_score f),
           (efficiency_score f), (growth_score f); reflexivity.
Qed.

Lemma weighted_range (s w : Q) :
  (0 <= s <= 100)%Q -> (0 <= w)%Q -> (0 <= s * w <= 100 * w)%Q.
Proof.
  intros [H0 H1] Hw. split.
  - apply Qmult_le_0_compat; assumption.
  - apply Qmult_le_compat_r; assumption.
Qed.

(** X5. With non-negative weights adding up to at most 1 (the defaults add up
    to exactly 1), the overall health score lies in [0 .. 100]. *)
Theorem calculateHealthScore_overall_range (f : FundamentalMetrics) (w : Weights) :
  (0 <= w_profitability w)%Q -> (0 <= w_liquidity w)%Q -> (0 <= w_leverage w)%Q ->
  (0 <= w_efficiency w)%Q -> (0 <= w_growth w)%Q ->
  (w_profitability w + w_liquidity w + w_leverage w + w_efficiency w + w_growth w <= 1)%Q ->
  (0 <= overall_score (calculateHealthScore f w) <= 100)%Z.
Proof.
  intros H1 H2 H3 H4 H5 Hsum. rewrite overall_score_eq. apply math_round_range.
  pose proof (weighted_range _ _ (profitability_range f) H1).
  pose proof (weighted_range _ _ (liquidity_range f) H2).
  pose proof (weighted_range _ _ (leverage_range f) H3).
  pose proof (weighted_range _ _ (efficiency_range f) H4).
  pose proof (weighted_range _ _ (growth_range f) H5).
  lra.
Qed.

Lemma clamp100_mono (x y : Q) : (x <= y)%Q -> (clamp100 x <= clamp100 y)%Q.
Proof.
  intros H. unfold clamp100.
  destruct (Q.max_spec 0 x) as [[A1 A2]|[A1 A2]], (Q.max_spec 0 y) as [[B1 B2]|[B1 B2]];
  destruct (Q.min_spec 100 (Qmax 0 x)) as [[C1 C2]|[C1 C2]],
           (Q.min_spec 100 (Qmax 0 y)) as [[D1 D2]|[D1 D2]]; lra.
Qed.

(** The leverage score as a function of a parsed debt-to-equity value. *)
Lemma leverage_score_value (f : FundamentalMetrics) (s : string) (de : Q) :
  truthy (debtToEquity f) = Some s -> parseFloat_s s = Some de ->
  fst (leverage_score f) =
    (if qle de (3 # 10) then 90%Q
     else if qle de (6 # 10) then 70%Q
     else if qle de 1 then 50%Q
     else Qmax 10 (50 - (de - 1) * 20)%Q).
Proof. intros H1 H2. unfold leverage_score. rewrite H1. cbn [option_map]. rewrite H2. reflexivity. Qed.

(** X6. A higher debt-to-equity ratio never gives a higher leverage score. *)
Theorem leverage_score_antitone (f1 f2 : FundamentalMetrics) (s1 s2 : string) (d1 d2 : Q) :
  truthy (debtToEquity f1) = Some s1 -> parseFloat_s s1 = Some d1 ->
  truthy (debtToEquity f2) = Some s2 -> parseFloat_s s2 = Some d2 ->
  (d1 <= d2)%Q ->
  (fst (leverage_score f2) <= fst (leverage_score f1))%Q.
Proof.
  intros A1 A2 B1 B2 H.
  rewrite (leverage_score_value f1 s1 d1 A1 A2), (leverage_score_value f2 s2 d2 B1 B2).
  repeat match goal with |- context [qle ?a ?b] => destruct (qle a b) eqn:? end; qbool;
  repeat match goal with |- context [Qmax ?a ?b] =>
    let E := fresh in destruct (Q.max_spec a b) as [[? E]|[? E]]; rewrite E; clear E end;
  lra.
Qed.

(** X7. A higher EPS growth never gives a lower growth score. *)
Theorem growth_score_monotone (f1 f2 : FundamentalMetrics) (s1 s2 : string) (g1 g2 : Q) :
  truthy (epsGrowth f1) = Some s1 -> parsePct s1 = Some g1 ->
  truthy (epsGrowth f2) = Some s2 -> parsePct s2 = Some g2 ->
  (g1 <= g2)%Q ->
  (fst (growth_score f1) <= fst (growth_score f2))%Q.
Proof.
  intros A1 A2 B1 B2 H. unfold growth_score. rewrite A1, B1. cbn [option_map].
  rewrite A2, B2. cbn [fst]. apply clamp100_mono. lra.
Qed.

(** X8. For the same return on equity, a higher profit margin never gives a
    lower profitability score. *)
Theorem profitability_score_monotone (f1 f2 : FundamentalMetrics) (s1 s2 : string) (m1 m2 : Q) :
  truthy (profitMargin f1) = Some s1 -> parsePct s1 = Some m1 ->
  truthy (profitMargin f2) = Some s2 -> parsePct s2 = Some m2 ->
  (m1 <= m2)%Q -> returnOnEquity f1 = returnOnEquity f2 ->
  (fst (profitability_score f1) <= fst (profitability_score f2))%Q.
Proof.
  intros A1 A2 B1 B2 H Hr. unfold profitability_score. rewrite A1, B1, Hr. cbn [option_map].
  rewrite A2, B2.
  assert (Hm : (clamp100 (50 + m1 * 2) <= clamp100 (50 + m2 * 2))%Q)
    by (apply clamp100_mono; lra).
  destruct (option_map parsePct (truthy (returnOnEquity f2))) as [[r|]|]; cbn [fst];
    [|exact Hm|exact Hm].
  set (x := clamp100 (50 + r * 3)).
  setoid_replace ((clamp100 (50 + m1 * 2) + x) / 2)%Q
    with ((clamp100 (50 + m1 * 2) + x) * (1 # 2))%Q by (field; discriminate).
  setoid_replace ((clamp100 (50 + m2 * 2) + x) / 2)%Q
    with ((clamp100 (50 + m2 * 2) + x) * (1 # 2))%Q by (field; discriminate).
  lra.
Qed.

(** Witnesses. *)

Definition metrics (margin roe eps de : option string) : FundamentalMetrics :=
  mkFundamentals "XYZ" None None None None None None None None margin None eps None de None roe.

Definition value_of (o : option Q) : Q := match o with Some q => q | None => 0%Q end.

Ltac qle_dec := apply Qle_bool_imp_le; vm_compute; reflexivity.

Lemma calculateHealthScore_overall_range_witness :
  (w_profitability default_weights + w_liquidity default_weights + w_leverage default_weights
   + w_efficiency default_weights + w_growth default_weights <= 1)%Q /\
  (0 <= overall_score (calculateHealthScore (metrics (Some "12%") None (Some "40%") (Some "2.5"))
                         default_weights) <= 100)%Z.
Proof.
  split; [qle_dec|].
  apply calculateHealthScore_overall_range; qle_dec.
Defined.

Lemma leverage_score_antitone_witness :
  (value_of (parseFloat_s "0.5") <= value_of (parseFloat_s "2"))%Q /\
  (fst (leverage_score (metrics None None None (Some "2")))
   <= fst (leverage_score (metrics None None None (Some "0.5"))))%Q.
Proof.
  split; [qle_dec|].
  apply (leverage_score_antitone (metrics None None None (Some "0.5"))
           (metrics None None None (Some "2")) "0.5" "2"
           (value_of (parseFloat_s "0.5")) (value_of (parseFloat_s "2")));
    first [reflexivity | qle_dec].
Defined.

Lemma growth_score_monotone_witness :
  (value_of (parsePct "5%") <= value_of (parsePct "30%"))%Q /\
  (fst (growth_score (metrics None None (Some "5%") None))
   <= fst (growth_score (metrics None None (Some "30%") None)))%Q.
Proof.
  split; [qle_dec|].
  apply (growth_score_monotone (metrics None None (Some "5%") None)
           (metrics None None (Some "30%") None) "5%" "30%"
           (value_of (parsePct "5%")) (value_of (parsePct "30%")));
    first [reflexivity | qle_dec].
Defined.

Lemma profitability_score_monotone_witness :
  (value_of (parsePct "8%") <= value_of (parsePct "15%"))%Q /\
  (fst (profitability_score (metrics (Some "8%") (Some "20%") None None))
   <= fst (profitability_score (metrics (Some "15%") (Some "20%") None None)))%Q.
Proof.
  split; [qle_dec|].
  apply (profitability_score_monotone (metrics (Some "8%") (Some "20%") None None)
           (metrics (Some "15%") (Some "20%") None None) "8%" "15%"
           (value_of (parsePct "8%")) (value_of (parsePct "15%")));
    first [reflexivity | qle_dec].
Defined.

End FundamentalsExtraFacts.

(* ------------------------------------------------------------------ *)
(** ** [calculateInsiderSentiment] and its helpers *)

Module InsiderSentimentFacts.
Import Insider RoundFacts.

Definition sum_buys (m : types_map) : nat :=
  fold_right (fun p acc => (buys (snd p) + acc)%nat) 0%nat m.
Definition sum_sells (m : types_map) : nat :=
  fold_right (fun p acc => (sells (snd p) + acc)%nat) 0%nat m.
Definition sum_net (m : types_map) : Q :=
  fold_right (fun p acc => (net_value (snd p) + acc)%Q) 0%Q m.

Lemma lookup_none_notin (m : types_map) (k : string) :
  lookup m k = None -> ~ In k (map fst m).
Proof.
  induction m as [|[k' v] m IH]; simpl; [tauto|].
  destruct (String.eqb_spec k k'); [discriminate|].
  intros H [H'|H']; [congruence|exact (IH H H')].
Qed.

Lemma lookup_app (m1 m2 : types_map) (k : string) :
  lookup (m1 ++ m2) k = match lookup m1 k with Some v => Some v | None => lookup m2 k end.
Proof.
  induction m1 as [|[k' v] m1 IH]; simpl; [reflexivity|].
  destruct (String.eqb k k'); [reflexivity|exact IH].
Qed.

Lemma update_keys (m : types_map) (k : string) (f : InsiderType -> InsiderType) :
  map fst (update m k f) = map fst m.
Proof.
  induction m as [|[k' v] m IH]; simpl; [reflexivity|].
  destruct (String.eqb k k'); simpl; [reflexivity|]. rewrite IH. reflexivity.
Qed.

Lemma update_sums (m : types_map) (k : string) (f : InsiderType -> InsiderType) (v : InsiderType) :
  lookup m k = Some v ->
  (sum_buys (update m k f) + buys v = sum_buys m + buys (f v))%nat /\
  (sum_sells (update m k f) + sells v = sum_sells m + sells (f v))%nat /\
  (sum_net (update m k f) + net_value v == sum_net m + net_value (f v))%Q.
Proof.
  induction m as [|[k' w] m IH]; simpl; [discriminate|].
  destruct (String.eqb k k'); intros H.
  - injection H as <-. unfold sum_buys, sum_sells, sum_net; simpl.
    split; [lia|split; [lia|ring]].
  - destruct (IH H) as [H1 [H2 H3]]. unfold sum_buys, sum_sells, sum_net in *; simpl.
    split; [lia|split; [lia|]]. rewrite <- Qplus_assoc, H3. ring.
Qed.

Lemma sums_app_zero (m : types_map) (k : string) :
  sum_buys (m ++ [(k, mkInsiderType 0 0 0)]) = sum_buys m /\
  sum_sells (m ++ [(k, mkInsiderType 0 0 0)]) = sum_sells m /\
  (sum_net (m ++ [(k, mkInsiderType 0 0 0)]) == sum_net m)%Q.
Proof.
  induction m as [|[k' w] m IH]; unfold sum_buys, sum_sells, sum_net in *; simpl.
  - split; [reflexivity|split; [reflexivity|ring]].
  - destruct IH as [H1 [H2 H3]]. rewrite H1, H2, H3. split; [reflexivity|split; reflexivity].
Qed.

(** The invariant of the tally after [n] transactions. *)
Definition tally_inv (st : Tally) (n : nat) : Prop :=
  (List.length (buyTxs st) + List.length (sellTxs st) <= n)%nat /\
  (0 <= totalBuy st)%Q /\ (0 <= totalSell st)%Q /\
  NoDup (map fst (types st)) /\
  sum_buys (types st) = List.length (buyTxs st) /\
  sum_sells (types st) = List.length (sellTxs st) /\
  (sum_net (types st) == totalBuy st - totalSell st)%Q.

Lemma tally_step_inv (st : Tally) (n : nat) (t : InsiderTransaction) :
  tally_inv st n -> tally_inv (tally_step st t) (S n).
Proof.
  intros (Hlen & Hb & Hs & Hnd & Hsb & Hss & Hsn).
  unfold tally_step.
  set (v := parseTransactionValue (value t)).
  set (rel := toLowerCase (relationship t)).
  set (ty := match lookup (types st) rel with
             | Some _ => types st
             | None => (types st ++ [(rel, mkInsiderType 0 0 0)])%list end).
  assert (Hty : NoDup (map fst ty) /\ (exists w, lookup ty rel = Some w) /\
                sum_buys ty = sum_buys (types st) /\ sum_sells ty = sum_sells (types st) /\
                (sum_net ty == sum_net (types st))%Q).
  { unfold ty. destruct (lookup (types st) rel) as [w|] eqn:E.
    - split; [exact Hnd|]. split; [exists w; exact E|]. split; [reflexivity|split; reflexivity].
    - destruct (sums_app_zero (types st) rel) as (E1 & E2 & E3).
      split; [|split; [|split; [exact E1|split; [exact E2|exact E3]]]].
      + rewrite map_app. simpl.
        apply Permutation_NoDup with (rel :: map fst (types st)); [apply Permutation_cons_append|].
        constructor; [apply lookup_none_notin; exact E|exact Hnd].
      + exists (mkInsiderType 0 0 0). rewrite lookup_app, E. simpl. rewrite String.eqb_refl.
        reflexivity. }
  destruct Hty as (Hnd' & [w Hw] & Eb & Es & En).
  pose proof (Qabs_nonneg v) as Hv.
  destruct (isBuyTransaction (toLowerCase (transactionType t))).
  - destruct (update_sums ty rel
                (fun a => mkInsiderType (S (buys a)) (sells a) (net_value a + Qabs v)%Q) w Hw)
      as (U1 & U2 & U3). simpl in U1, U2, U3.
    unfold tally_inv; simpl. rewrite update_keys, length_app. simpl.
    repeat split; try exact Hnd'; try lia; try lra.
  - destruct (isSellTransaction (toLowerCase (transactionType t))).
    + destruct (update_sums ty rel
                  (fun a => mkInsiderType (buys a) (S (sells a)) (net_value a - Qabs v)%Q) w Hw)
        as (U1 & U2 & U3). simpl in U1, U2, U3.
      unfold tally_inv; simpl. rewrite update_keys, length_app. simpl.
      repeat split; try exact Hnd'; try lia; try lra.
    + unfold tally_inv; simpl. repeat split; try lia; try lra; try exact Hnd'.
Qed.

Lemma tally_fold_inv (l : list InsiderTransaction) :
  forall st n, tally_inv st n -> tally_inv (fold_left tally_step l st) (n + List.length l).
Proof.
  induction l as [|t l IH]; intros st n H; simpl.
  - rewrite Nat.add_0_r. exact H.
  - rewrite <- Nat.add_succ_comm. apply IH, tally_step_inv, H.
Qed.

Lemma tally_inv_init : tally_inv (mkTally [] [] 0 0 []) 0.
Proof. unfold tally_inv; simpl. repeat split; try lia; try lra. constructor. Qed.


(** X9. For every transaction list, time window and minimum value, the summary
    of [calculateInsiderSentiment] counts the relevant transactions, has no
    more buys plus sells than that count, and non-negative buy and sell
    totals. *)
Theorem calculateInsiderSentiment_summary (parseTransactionDate : string -> Z) (cutoffDate : Z)
    (transactions : list InsiderTransaction) (minValue : Q) :
  let s := transaction_summary
             (calculateInsiderSentiment parseTransactionDate cutoffDate transactions minValue) in
  total_transactions s
    = List.length (filter (is_relevant parseTransactionDate cutoffDate minValue) transactions) /\
  (buy_transactions s + sell_transactions s <= total_transactions s)%nat /\
  (0 <= total_buy_value s)%Q /\ (0 <= total_sell_value s)%Q.
Proof.
  intros s. unfold s, calculateInsiderSentiment. cbv zeta.
  destruct (filter (is_relevant parseTransactionDate cutoffDate minValue) transactions)
    as [|t0 R] eqn:ER.
  - simpl. repeat split; try lia; try lra.
  - destruct (tally_fold_inv (t0 :: R) _ _ tally_inv_init) as (Hlen & Hb & Hs & _).
    simpl in Hlen |- *.
    split; [reflexivity|]. split; [lia|]. split; [exact Hb | exact Hs].
Qed.

(** X10. The per-relationship breakdown of [calculateInsiderSentiment] has each
    lower-cased relationship once, and its buy counts and sell counts add up
    to the summary's buy count and sell count.  The breakdown is an object
    literal: a relationship that lower-cases to a name the object inherits
    ([constructor], [__proto__]) is found there already and gets no entry of
    its own, so such relationships are excluded. *)
Theorem calculateInsiderSentiment_types (parseTransactionDate : string -> Z) (cutoffDate : Z)
    (transactions : list InsiderTransaction) (minValue : Q) :
  forallb (fun t => negb (String.eqb (toLowerCase (relationship t)) "constructor"%string)
                    && negb (String.eqb (toLowerCase (relationship t)) "__proto__"%string))
          transactions = true ->
  let r := calculateInsiderSentiment parseTransactionDate cutoffDate transactions minValue in
  NoDup (map fst (insider_types r)) /\
  sum_buys (insider_types r) = buy_transactions (transaction_summary r) /\
  sum_sells (insider_types r) = sell_transactions (transaction_summary r).
Proof.
  intros _ r. unfold r, calculateInsiderSentiment. cbv zeta.
  destruct (filter (is_relevant parseTransactionDate cutoffDate minValue) transactions)
    as [|t0 R] eqn:ER.
  - simpl. split; [constructor|]. split; reflexivity.
  - destruct (tally_fold_inv (t0 :: R) _ _ tally_inv_init) as (_ & _ & _ & H1 & H2 & H3 & _).
    simpl. repeat split; assumption.
Qed.

Lemma tally_fold_no_buy (l : list InsiderTransaction) :
  forall st, (forall t, In t l -> isBuyTransaction (toLowerCase (transactionType t)) = false) ->
  totalBuy (fold_left tally_step l st) = totalBuy st.
Proof.
  induction l as [|t l IH]; intros st H; simpl; [reflexivity|].
  rewrite IH by (intros t' Ht'; apply H; right; exact Ht').
  unfold tally_step. rewrite (H t (or_introl eq_refl)).
  destruct (isSellTransaction _); reflexivity.
Qed.

Ltac open_sentiment :=
  unfold calculateInsiderSentiment; cbv zeta.

(** X11. When some transaction is relevant but none of the relevant ones is a
    buy, [calculateInsiderSentiment] reports a bearish sentiment (also when
    none of them is a sale: the buy ratio is then 0). *)
Theorem calculateInsiderSentiment_no_buys (parseTransactionDate : string -> Z) (cutoffDate : Z)
    (transactions : list InsiderTransaction) (minValue : Q) :
  filter (is_relevant parseTransactionDate cutoffDate minValue) transactions <> [] ->
  (forall t, In t transactions ->
             is_relevant parseTransactionDate cutoffDate minValue t = true ->
             isBuyTransaction (toLowerCase (transactionType t)) = false) ->
  overall_sentiment (calculateInsiderSentiment parseTransactionDate cutoffDate transactions minValue)
  = Barchart.bearish.
Proof.
  intros Hne Hnb. open_sentiment.
  assert (Hall : forall t, In t (filter (is_relevant parseTransactionDate cutoffDate minValue)
                                        transactions) ->
                 isBuyTransaction (toLowerCase (transactionType t)) = false)
    by (intros t Ht; apply filter_In in Ht as [H1 H2]; exact (Hnb t H1 H2)).
  destruct (filter (is_relevant parseTransactionDate cutoffDate minValue) transactions)
    as [|t0 R]; [congruence|].
  rewrite (tally_fold_no_buy (t0 :: R) _ Hall). simpl.
  destruct (qlt 0 (0 + totalSell (fold_left tally_step R (tally_step (mkTally [] [] 0 0 []) t0))));
    reflexivity.
Qed.

Lemma insights_shape (x : string) (l1 l2 l3 l4 : list string) :
  (List.length l1 <= 1)%nat -> (List.length l2 <= 1)%nat ->
  (List.length l3 <= 1)%nat -> (List.length l4 <= 1)%nat ->
  (1 <= List.length (match (l1 ++ l2 ++ l3 ++ l4)%list with [] => [x] | l => l end) <= 4)%nat.
Proof.
  intros H1 H2 H3 H4.
  destruct (l1 ++ l2 ++ l3 ++ l4)%list as [|y l] eqn:E; simpl; [lia|].
  assert (Hl : List.length (l1 ++ l2 ++ l3 ++ l4)%list = S (List.length l)) by (rewrite E; reflexivity).
  rewrite !length_app in Hl. lia.
Qed.

(** X13. [generateInsiderInsights] always returns between one and four insights
    (one per rule that fires, or the single mixed-activity message). *)
Theorem generateInsiderInsights_count (buyTransactions sellTransactions : list InsiderTransaction)
    (totalBuyValue totalSellValue : Q) (insiderTypes : types_map) :
  (1 <= List.length (generateInsiderInsights buyTransactions sellTransactions
                       totalBuyValue totalSellValue insiderTypes) <= 4)%nat.
Proof.
  unfold generateInsiderInsights. cbv zeta.
  apply insights_shape;
    repeat match goal with |- context [match ?c with _ => _ end] => destruct c end;
    simpl; lia.
Qed.

(** The order [getSignificantTransactions] sorts by. *)
Definition by_abs_desc (a b : InsiderTransaction) : Prop := (abs_value b <= abs_value a)%Q.

Lemma insert_desc_perm (x : InsiderTransaction) (l : list InsiderTransaction) :
  Permutation (insert_desc x l) (x :: l).
Proof.
  induction l as [|y l IH]; simpl; [reflexivity|].
  destruct (qlt (abs_value y) (abs_value x)); [reflexivity|].
  rewrite IH. apply perm_swap.
Qed.

Lemma insert_desc_hd (z x : InsiderTransaction) (l : list InsiderTransaction) :
  HdRel by_abs_desc z l -> by_abs_desc z x -> HdRel by_abs_desc z (insert_desc x l).
Proof.
  intros H Hzx. destruct l as [|y l]; simpl.
  - constructor. exact Hzx.
  - destruct (qlt (abs_value y) (abs_value x)); constructor; [exact Hzx|].
    inversion H; assumption.
Qed.

Lemma insert_desc_sorted (x : InsiderTransaction) (l : list InsiderTransaction) :
  Sorted by_abs_desc l -> Sorted by_abs_desc (insert_desc x l).
Proof.
  induction l as [|y l IH]; intros H; simpl.
  - repeat constructor.
  - destruct (qlt (abs_value y) (abs_value x)) eqn:E.
    + apply qlt_true in E. constructor; [exact H|]. constructor. unfold by_abs_desc. lra.
    + apply qlt_false in E. apply Sorted_inv in H as [Hs Hh].
      constructor; [exact (IH Hs)|]. apply insert_desc_hd; [exact Hh|exact E].
Qed.

Lemma sort_fold (l : list InsiderTransaction) :
  forall acc, Sorted by_abs_desc acc ->
  Sorted by_abs_desc (fold_left (fun acc x => insert_desc x acc) l acc) /\
  Permutation (fold_left (fun acc x => insert_desc x acc) l acc) (l ++ acc).
Proof.
  induction l as [|x l IH]; intros acc H; simpl; [split; [exact H|reflexivity]|].
  destruct (IH (insert_desc x acc) (insert_desc_sorted x acc H)) as [Hs Hp].
  split; [exact Hs|]. rewrite Hp, insert_desc_perm. symmetry. apply Permutation_middle.
Qed.

Lemma sorted_firstn (n : nat) (l : list InsiderTransaction) :
  Sorted by_abs_desc l -> Sorted by_abs_desc (firstn n l).
Proof.
  revert n. induction l as [|a l IH]; intros n H; destruct n as [|n]; simpl;
    [constructor|constructor|constructor|].
  apply Sorted_inv in H as [Hs Hh].
  constructor; [exact (IH n Hs)|]. destruct l as [|b l], n as [|n]; simpl; constructor.
  inversion Hh; assumption.
Qed.

(** X14. [getSignificantTransactions] returns [min limit n] of the [n]
    transactions, ordered by decreasing absolute value. *)
Theorem getSignificantTransactions_sorted (transactions : list InsiderTransaction) (limit : nat) :
  List.length (getSignificantTransactions transactions limit)
    = Nat.min limit (List.length transactions) /\
  Sorted (fun a b => (abs_value b <= abs_value a)%Q)
         (getSignificantTransactions transactions limit).
Proof.
  destruct (sort_fold transactions [] (Sorted_nil _)) as [Hs Hp].
  rewrite app_nil_r in Hp. unfold getSignificantTransactions. split.
  - rewrite length_firstn, (Permutation_length Hp). reflexivity.
  - exact (sorted_firstn limit _ Hs).
Qed.

Lemma strongly_sorted_app (l1 l2 : list InsiderTransaction) :
  StronglySorted by_abs_desc (l1 ++ l2) ->
  forall x y, In x l1 -> In y l2 -> by_abs_desc x y.
Proof.
  induction l1 as [|a l1 IH]; intros H x y Hx Hy; [destruct Hx|].
  simpl in H. apply StronglySorted_inv in H as [Hs Hf].
  destruct Hx as [<-|Hx].
  - rewrite Forall_forall in Hf. apply Hf, in_or_app. right. exact Hy.
  - exact (IH Hs x y Hx Hy).
Qed.

(** X15. [getSignificantTransactions] is a top-[limit] selection: the input is a
    permutation of the result followed by the transactions left out, and
    none left out has a larger absolute value than one returned. *)
Theorem getSignificantTransactions_top (transactions : list InsiderTransaction) (limit : nat) :
  exists rest,
    Permutation (getSignificantTransactions transactions limit ++ rest) transactions /\
    forall x y, In x (getSignificantTransactions transactions limit) -> In y rest ->
                (abs_value y <= abs_value x)%Q.
Proof.
  destruct (sort_fold transactions [] (Sorted_nil _)) as [Hs Hp].
  rewrite app_nil_r in Hp. unfold getSignificantTransactions.
  set (sorted := fold_left (fun acc x => insert_desc x acc) transactions []) in *.
  exists (skipn limit sorted). rewrite firstn_skipn. split; [exact Hp|].
  apply strongly_sorted_app. rewrite firstn_skipn.
  apply Sorted_StronglySorted; [|exact Hs].
  intros a b c Hab Hbc. unfold by_abs_desc in *. lra.
Qed.

(** Witnesses. *)

Definition sale_tx : InsiderTransaction :=
  mkTransaction "Doe Jane" "CEO" "Jan 02 '25" "Sale" "52.10" "2,000" "104,200" "50,000".
Definition buy_tx : InsiderTransaction :=
  mkTransaction "Roe Sam" "Director" "Jan 03 '25" "Buy" "50.00" "1,000" "50,000" "12,000".

Lemma calculateInsiderSentiment_no_buys_witness :
  filter (is_relevant (fun _ => 0%Z) 0%Z 0%Q) [sale_tx; sale_tx] <> [] /\
  overall_sentiment (calculateInsiderSentiment (fun _ => 0%Z) 0%Z [sale_tx; sale_tx] 0%Q)
  = Barchart.bearish.
Proof.
  assert (H : filter (is_relevant (fun _ => 0%Z) 0%Z 0%Q) [sale_tx; sale_tx] <> [])
    by (vm_compute; discriminate).
  split; [exact H|]. apply calculateInsiderSentiment_no_buys; [exact H|].
  intros t [<-|[<-|[]]] _; vm_compute; reflexivity.
Defined.

Lemma calculateInsiderSentiment_types_witness :
  NoDup (map fst (insider_types
    (calculateInsiderSentiment (fun _ => 0%Z) 0%Z [sale_tx; buy_tx; sale_tx] 0%Q))) /\
  sum_buys (insider_types
    (calculateInsiderSentiment (fun _ => 0%Z) 0%Z [sale_tx; buy_tx; sale_tx] 0%Q)) = 1%nat.
Proof.
  destruct (calculateInsiderSentiment_types (fun _ => 0%Z) 0%Z [sale_tx; buy_tx; sale_tx] 0%Q
              ltac:(vm_compute; reflexivity)) as [Hn [Hb _]].
  split; [exact Hn|]. rewrite Hb. vm_compute. reflexivity.
Defined.

End InsiderSentimentFacts.

(* ------------------------------------------------------------------ *)
(** ** [getInsiderActivity]: type filter and [slice(0, limit)] *)

Module ActivityFacts.
Import Insider.
Local Open Scope string_scope.

Lemma firstn_min_length {A} (n : nat) (l : list A) :
  firstn (Nat.min n (List.length l)) l = firstn n l.
Proof.
  destruct (Nat.min_spec n (List.length l)) as [[_ E]|[H E]]; rewrite E; [reflexivity|].
  rewrite firstn_all, firstn_all2; [reflexivity|exact H].
Qed.

(** X16. [getInsiderActivity] returns only transactions of the fetched list,
    and, when a non-empty [transaction_types] list is given, only those
    whose lower-cased type contains one of the lower-cased requested
    types. *)
Theorem selectInsiderActivity_sound (types : option (list string)) (limit : Q)
    (transactions : list InsiderTransaction) (t : InsiderTransaction) :
  In t (selectInsiderActivity types limit transactions) ->
  In t transactions /\
  match types with
  | Some ((_ :: _) as ts) =>
      exists type, In type ts /\
        str_includes (js_toLowerCase (transactionType t)) (js_toLowerCase type) = true
  | _ => True
  end.
Proof.
  unfold selectInsiderActivity, slice0. intros H.
  match type of H with In t (firstn ?n ?l) =>
    assert (H' : In t (firstn n l ++ skipn n l)) by (apply in_or_app; left; exact H);
    rewrite firstn_skipn in H'; clear H; rename H' into H end.
  unfold filterTransactions in H.
  destruct types as [[|ty tys]|]; try (split; [exact H|exact I]).
  apply filter_In in H as [H1 H2]. apply existsb_exists in H2. split; assumption.
Qed.

(** X17. A limit of zero or more (also a fractional one) returns the first
    [floor limit] of the type-filtered transactions, all of them when there
    are fewer. *)
Theorem selectInsiderActivity_nonneg_limit (types : option (list string)) (limit : Q)
    (transactions : list InsiderTransaction) :
  (0 <= limit)%Q ->
  selectInsiderActivity types limit transactions
  = firstn (Z.to_nat (Qfloor limit)) (filterTransactions types transactions).
Proof.
  intros H. unfold selectInsiderActivity, slice0.
  destruct limit as [n d]. unfold Qle in H. simpl in H |- *.
  assert (Hq : Z.quot n (Zpos d) = n / Zpos d) by (apply Z.quot_div_nonneg; lia).
  rewrite Hq.
  assert (H0 : 0 <= n / Zpos d) by (apply Z.div_pos; lia).
  destruct (Z.ltb_spec (n / Zpos d) 0); [lia|].
  rewrite Z2Nat.inj_min, Nat2Z.id. apply firstn_min_length.
Qed.

(** X18. A negative integer limit [-k] returns the type-filtered transactions
    without their last [k] (none when there are at most [k]). *)
Theorem selectInsiderActivity_negative_limit (types : option (list string)) (m : Z)
    (transactions : list InsiderTransaction) :
  m < 0 ->
  selectInsiderActivity types (inject_Z m) transactions
  = firstn (List.length (filterTransactions types transactions) - Z.to_nat (- m))
           (filterTransactions types transactions).
Proof.
  intros H. unfold selectInsiderActivity, slice0. simpl. rewrite Z.quot_1_r.
  destruct (Z.ltb_spec m 0); [|lia]. f_equal. lia.
Qed.

(** Witnesses. *)

Definition activity : list InsiderTransaction :=
  [InsiderSentimentFacts.sale_tx; InsiderSentimentFacts.buy_tx; InsiderSentimentFacts.sale_tx].

Lemma selectInsiderActivity_sound_witness :
  let t := hd InsiderSentimentFacts.buy_tx (selectInsiderActivity (Some ["SALE"]) 10%Q activity) in
  In t (selectInsiderActivity (Some ["SALE"]) 10%Q activity) /\
  In t activity /\
  exists type, In type ["SALE"] /\
    str_includes (js_toLowerCase (transactionType t)) (js_toLowerCase type) = true.
Proof.
  assert (H : In (hd InsiderSentimentFacts.buy_tx (selectInsiderActivity (Some ["SALE"]) 10%Q activity))
                 (selectInsiderActivity (Some ["SALE"]) 10%Q activity))
    by (vm_compute; left; reflexivity).
  split; [exact H|]. exact (selectInsiderActivity_sound _ _ _ _ H).
Defined.

Lemma selectInsiderActivity_nonneg_limit_witness :
  (0 <= 5 # 2)%Q /\
  selectInsiderActivity None (5 # 2) activity
  = firstn (Z.to_nat (Qfloor (5 # 2))) (filterTransactions None activity).
Proof.
  assert (H : (0 <= 5 # 2)%Q) by (apply Qle_bool_imp_le; vm_compute; reflexivity).
  split; [exact H|]. exact (selectInsiderActivity_nonneg_limit None (5 # 2) activity H).
Defined.

Lemma selectInsiderActivity_negative_limit_witness :
  (-1 < 0)%Z /\
  selectInsiderActivity (Some ["sale"]) (inject_Z (-1)) activity
  = firstn (List.length (filterTransactions (Some ["sale"]) activity) - Z.to_nat 1)
           (filterTransactions (Some ["sale"]) activity).
Proof.
  split; [lia|]. exact (selectInsiderActivity_negative_limit (Some ["sale"]) (-1) activity
                          ltac:(lia)).
Defined.

End ActivityFacts.

(* ------------------------------------------------------------------ *)
(** ** The news helpers of src/tools/insider.ts *)

Module NewsFacts.
Import Insider News.
Local Open Scope string_scope.

Lemma in_set_add (l : list string) (t x : string) :
  In x (set_add l t) <-> In x l \/ x = t.
Proof.
  unfold set_add. destruct (existsb (String.eqb t) l) eqn:E.
  - apply existsb_exists in E as [y [Hy Ey]]. apply String.eqb_eq in Ey. subst y.
    split; [tauto | intros [H|H]; [exact H | subst; exact Hy]].
  - rewrite in_app_iff. simpl. intuition.
Qed.

Lemma set_add_nodup (l : list string) (t : string) : NoDup l -> NoDup (set_add l t).
Proof.
  intros Hl. unfold set_add. destruct (existsb (String.eqb t) l) eqn:E; [exact Hl|].
  apply Permutation_NoDup with (t :: l); [apply Permutation_cons_append|].
  constructor; [|exact Hl]. intros Hin.
  assert (existsb (String.eqb t) l = true) as E'
    by (apply existsb_exists; exists t; split; [exact Hin | apply String.eqb_refl]).
  congruence.
Qed.

Definition themes_of (text : string) :=
  fold_left (fun themes '(theme, keywords) =>
               if mentions text keywords then set_add themes theme else themes).

Lemma themes_of_spec (text : string) (cats : list (string * list string)) :
  forall acc, NoDup acc ->
  NoDup (themes_of text cats acc) /\
  forall x, In x (themes_of text cats acc) <->
            In x acc \/ exists kw, In (x, kw) cats /\ mentions text kw = true.
Proof.
  induction cats as [|[theme kw] cats IH]; intros acc Hacc; simpl.
  - split; [exact Hacc|]. intros x. split; [tauto|]. intros [H|[kw [[] _]]]. exact H.
  - destruct (mentions text kw) eqn:Em.
    + destruct (IH (set_add acc theme) (set_add_nodup _ _ Hacc)) as [Hn Hx].
      split; [exact Hn|]. intros x. rewrite Hx, in_set_add. split.
      * intros [[H|H]|[kw' [H1 H2]]]; [tauto| subst; right; exists kw; tauto
                                        | right; exists kw'; tauto].
      * intros [H|[kw' [[H1|H1] H2]]].
        -- left; left; exact H.
        -- inversion H1; subst. left; right; reflexivity.
        -- right; exists kw'; tauto.
    + destruct (IH acc Hacc) as [Hn Hx]. split; [exact Hn|]. intros x. rewrite Hx. split.
      * intros [H|[kw' [H1 H2]]]; [tauto|right; exists kw'; tauto].
      * intros [H|[kw' [[H1|H1] H2]]]; [tauto| |right; exists kw'; tauto].
        inversion H1; subst. congruence.
Qed.

Lemma extract_fold_spec (articles : list Article) :
  forall acc, NoDup acc ->
  NoDup (fold_left (fun themes article => themes_of (article_text article) keywordCategories themes)
                   articles acc) /\
  forall x, In x (fold_left (fun themes article =>
                               themes_of (article_text article) keywordCategories themes)
                            articles acc) <->
            In x acc \/ exists kw, In (x, kw) keywordCategories /\
                        exists article, In article articles /\ mentions (article_text article) kw = true.
Proof.
  induction articles as [|a articles IH]; intros acc Hacc; simpl.
  - split; [exact Hacc|]. intros x. split; [tauto|]. intros [H|[kw [_ [a [[] _]]]]]. exact H.
  - destruct (themes_of_spec (article_text a) keywordCategories acc Hacc) as [Hn Hx].
    destruct (IH _ Hn) as [Hn' Hx']. split; [exact Hn'|]. intros x. rewrite Hx', Hx. split.
    + intros [[H|[kw [H1 H2]]]|[kw [H1 [b [H2 H3]]]]].
      * tauto.
      * right. exists kw. split; [exact H1|]. exists a. split; [left; reflexivity|exact H2].
      * right. exists kw. split; [exact H1|]. exists b. split; [right; exact H2|exact H3].
    + intros [H|[kw [H1 [b [[H2|H2] H3]]]]].
      * tauto.
      * subst b. left. right. exists kw. split; [exact H1|exact H3].
      * right. exists kw. split; [exact H1|]. exists b. split; [exact H2|exact H3].
Qed.

(** X19. [extractNewsThemes] lists each theme at most once, and a theme is listed
    exactly when it is one of the eight categories and some article's
    lower-cased headline-plus-summary text contains one of its keywords. *)
Theorem extractNewsThemes_spec (articles : list Article) :
  NoDup (extractNewsThemes articles) /\
  forall theme, In theme (extractNewsThemes articles) <->
    exists keywords, In (theme, keywords) keywordCategories /\
      exists article, In article articles /\ mentions (article_text article) keywords = true.
Proof.
  destruct (extract_fold_spec articles [] (NoDup_nil _)) as [Hn Hx].
  split; [exact Hn|]. intros theme. specialize (Hx theme).
  unfold extractNewsThemes. rewrite Hx. simpl. tauto.
Qed.

Definition urgency_rank (u : urgency) : nat :=
  match u with high => 2%nat | medium => 1%nat | low => 0%nat end.

(** X20. Adding articles before or after a list never lowers the urgency
    [assessNewsUrgency] gives it (in the order low < medium < high). *)
Theorem assessNewsUrgency_monotone (l0 l1 l2 : list Article) :
  (urgency_rank (assessNewsUrgency l1) <= urgency_rank (assessNewsUrgency (l0 ++ l1 ++ l2)))%nat.
Proof.
  unfold assessNewsUrgency. rewrite !filter_app, !length_app.
  set (u0 := List.length (filter _ l0)). set (u1 := List.length (filter _ l1)).
  set (u2 := List.length (filter _ l2)).
  set (m0 := List.length (filter (fun article => mentions _ moderateKeywords) l0)).
  set (m1 := List.length (filter (fun article => mentions _ moderateKeywords) l1)).
  set (m2 := List.length (filter (fun article => mentions _ moderateKeywords) l2)).
  destruct (Nat.ltb_spec 0 u1), (Nat.ltb_spec 0 (u0 + (u1 + u2))), (Nat.leb_spec 2 m1),
           (Nat.leb_spec 2 (m0 + (m1 + m2))); simpl; lia.
Qed.

(** [Array.prototype.includes] on sources is equality. *)
Lemma opt_eqb_eq (a b : option string) : opt_eqb a b = true <-> a = b.
Proof.
  destruct a as [x|], b as [y|]; simpl; split; intros H; try congruence.
  - apply String.eqb_eq in H. congruence.
  - inversion H. apply String.eqb_refl.
Qed.

Lemma in_push_new (l : list (option string)) (y x : option string) :
  In x (push_new l y) <-> In x l \/ x = y.
Proof.
  unfold push_new. destruct (existsb (opt_eqb y) l) eqn:E.
  - apply existsb_exists in E as [z [Hz Ez]]. apply opt_eqb_eq in Ez. subst z.
    split; [tauto | intros [H|H]; [exact H | subst; exact Hz]].
  - rewrite in_app_iff. simpl. intuition.
Qed.

Lemma push_new_nodup (l : list (option string)) (y : option string) :
  NoDup l -> NoDup (push_new l y).
Proof.
  intros Hl. unfold push_new. destruct (existsb (opt_eqb y) l) eqn:E; [exact Hl|].
  apply Permutation_NoDup with (y :: l); [apply Permutation_cons_append|].
  constructor; [|exact Hl]. intros Hin.
  assert (existsb (opt_eqb y) l = true) as E'
    by (apply existsb_exists; exists y; split; [exact Hin | apply opt_eqb_eq; reflexivity]).
  congruence.
Qed.

(** The list a source goes to: 0 high, 1 medium, 2 low. *)
Definition credibility (src : option string) : nat :=
  if mentions (source_key src) highCredibilitySources then 0%nat
  else if mentions (source_key src) mediumCredibilitySources then 1%nat else 2%nat.

Definition bucket (n : nat) (c : Categorized) : list (option string) :=
  match n with
  | O => high_credibility c
  | S O => medium_credibility c
  | _ => low_credibility c
  end.

Lemma categorize_fold_spec (articles : list Article) :
  forall c n, (n <= 2)%nat -> NoDup (bucket n c) ->
  NoDup (bucket n (fold_left categorize_step articles c)) /\
  forall s, In s (bucket n (fold_left categorize_step articles c)) <->
            In s (bucket n c) \/ (In s (map source articles) /\ credibility s = n).
Proof.
  induction articles as [|a articles IH]; intros c n Hn Hc; simpl.
  - split; [exact Hc|]. intros s. tauto.
  - assert (Hstep : NoDup (bucket n (categorize_step c a)) /\
                    forall s, In s (bucket n (categorize_step c a)) <->
                              In s (bucket n c) \/ (s = source a /\ credibility s = n)).
    { unfold categorize_step, credibility.
      destruct (mentions (source_key (source a)) highCredibilitySources) eqn:E1;
        [|destruct (mentions (source_key (source a)) mediumCredibilitySources) eqn:E2];
        (destruct n as [|[|[|n]]]; [| | |lia]); simpl in *;
        first [ split; [apply push_new_nodup; exact Hc|]; intros s; rewrite in_push_new;
                split; [intros [H|H]; [tauto|subst s; rewrite ?E1, ?E2; tauto]|];
                intros [H|[H1 H2]]; [tauto|right; exact H1]
              | split; [exact Hc|]; intros s; split; [tauto|];
                intros [H|[H1 H2]]; [exact H|subst s; rewrite ?E1, ?E2 in H2; discriminate] ]. }
    destruct Hstep as [Hs Hsx]. destruct (IH _ n Hn Hs) as [Hn' Hx']. split; [exact Hn'|].
    intros s. rewrite Hx', Hsx. split.
    + intros [[H|[H1 H2]]|[H1 H2]]; [tauto|right; split; [left; congruence|exact H2]|].
      right. split; [right; exact H1|exact H2].
    + intros [H|[[H1|H1] H2]]; [tauto|left; right; split; [congruence|exact H2]|tauto].
Qed.

(** X21. [categorizeNewsSources] lists each distinct [article.source] value once
    (equality is exact, so [Reuters] and [reuters] are two entries) and in
    exactly one list: high when its lower-cased form contains a high
    credibility name, else medium when it contains a medium one, else low;
    an absent source is listed (as [undefined]) in the low list. *)
Theorem categorizeNewsSources_spec (articles : list Article) :
  let c := categorizeNewsSources articles in
  NoDup (high_credibility c) /\ NoDup (medium_credibility c) /\ NoDup (low_credibility c) /\
  forall s,
    (In s (high_credibility c) <->
       In s (map source articles) /\ mentions (source_key s) highCredibilitySources = true) /\
    (In s (medium_credibility c) <->
       In s (map source articles) /\ mentions (source_key s) highCredibilitySources = false
       /\ mentions (source_key s) mediumCredibilitySources = true) /\
    (In s (low_credibility c) <->
       In s (map source articles) /\ mentions (source_key s) highCredibilitySources = false
       /\ mentions (source_key s) mediumCredibilitySources = false).
Proof.
  intros c.
  destruct (categorize_fold_spec articles (mkCategorized [] [] []) 0%nat ltac:(lia) (NoDup_nil _))
    as [H0 X0].
  destruct (categorize_fold_spec articles (mkCategorized [] [] []) 1%nat ltac:(lia) (NoDup_nil _))
    as [H1 X1].
  destruct (categorize_fold_spec articles (mkCategorized [] [] []) 2%nat ltac:(lia) (NoDup_nil _))
    as [H2 X2].
  simpl in H0, X0, H1, X1, H2, X2. split; [exact H0|]. split; [exact H1|]. split; [exact H2|].
  intros s. unfold c, categorizeNewsSources. rewrite X0, X1, X2. unfold credibility.
  destruct (mentions (source_key s) highCredibilitySources),
           (mentions (source_key s) mediumCredibilitySources); simpl; intuition congruence.
Qed.

End NewsFacts.
